(** * Deep transition dependency parser (gtnlplib): model and properties

    The development follows the two modules of the package:
    [feat_extractors.py] (the feature extractor used by the decoding loop)
    and [neural_net.py] (embedding lookups, combiner networks and the
    action chooser).  The parser state machine the extractor reads from is
    described by the package's specification and is modelled after it. *)

From Stdlib Require Import ZArith List Lia.
From stdpp Require Import base option list gmap strings.

(** ** Python values, exceptions and the state-and-exception monad *)

Module Py.

(** The exceptions the modelled code can raise. *)
Inductive exn : Set :=
| IndexError
| IllegalActionError
| MalformedGoldDerivationError
| RuntimeError
| AssertionError.

(** Outcome of a call: a value, or a raised exception. *)
Inductive res (A : Type) : Type :=
| Ok (a : A)
| Raise (e : exn).
Global Arguments Ok {A} a.
Global Arguments Raise {A} e.

Definition is_ok {A} (r : res A) : bool :=
  match r with Ok _ => true | Raise _ => false end.

(** A method of an object with state [S]: it returns or raises, and leaves
    the object in a (possibly changed) state. *)
Definition M (S A : Type) : Type := S -> res A * S.

Definition ret {S A} (a : A) : M S A := fun s => (Ok a, s).
Definition raise {S A} (e : exn) : M S A := fun s => (Raise e, s).
Definition bind {S A B} (m : M S A) (k : A -> M S B) : M S B :=
  fun s => match m s with
           | (Ok a, s') => k a s'
           | (Raise e, s') => (Raise e, s')
           end.
Definition lift {S A} (r : res A) : M S A := fun s => (r, s).
Definition get {S} : M S S := fun s => (Ok s, s).
Definition put {S} (s' : S) : M S unit := fun _ => (Ok tt, s').

Declare Scope py_scope.
Delimit Scope py_scope with py.
Notation "x <- m ;; k" := (bind m (fun x => k))
  (at level 100, m at next level, right associativity) : py_scope.

(** A list comprehension [[f x for x in l]]: the elements are evaluated
    left to right and the first exception aborts the comprehension. *)
Fixpoint comprehension {S A B} (f : A -> M S B) (l : list A) : M S (list B) :=
  match l with
  | [] => ret []
  | x :: l' => bind (f x) (fun y => bind (comprehension f l') (fun ys => ret (y :: ys)))
  end.

(** Subscription [l[i]] of a list or tuple with a non-negative index:
    [IndexError] when [i] is out of range. *)
Definition getitem {S A} (l : list A) (i : nat) : M S A :=
  match l !! i with
  | Some x => ret x
  | None => raise IndexError
  end.

Section Values.
(** Representation vectors (autograd Variables). *)
Context {V : Type}.

Inductive value : Type :=
| VNone
| VStr (s : string)
| VInt (z : Z)
| VRep (v : V)
| VInts (l : list Z).

End Values.
Global Arguments value : clear implicits.

(** A stack or buffer entry as the extractor sees it: a tuple. *)
Abbreviation entry V := (list (value V)).

(** The dict collected from the keyword arguments of a call. *)
Abbreviation kwargs_t V := (gmap string (value V)).

End Py.

Import Py.
Local Open Scope py_scope.

(** ** feat_extractors.py *)

Module FeatExtractors.

(** What [get_features] needs from the object passed as [parser_state]:
    the two peek methods. *)
Class Peekable (V S : Type) := {
  stack_peek_n : nat -> M S (list (entry V));
  input_buffer_peek_n : nat -> M S (list (entry V));
}.

Section SimpleFeatureExtractor.
Context {V S : Type} `{!Peekable V S}.

(** [SimpleFeatureExtractor.get_features(self, parser_state, **kwargs)];
    the state of [parser_state] is the state threaded by the monad. *)
Definition get_features (kwargs : kwargs_t V) : M S (list (value V)) :=
  peeked <- stack_peek_n 2 ;;
  feats <- comprehension (fun stackEntry => getitem stackEntry 2) peeked ;;
  front <- input_buffer_peek_n 1 ;;
  first <- getitem front 0 ;;
  rep <- getitem first 2 ;;
  ret (feats ++ [rep]).
End SimpleFeatureExtractor.

End FeatExtractors.

(** ** The parser state machine read by the extractor *)

Module Parser.

Inductive Action : Set := SHIFT | REDUCE_L | REDUCE_R.

#[global] Instance Action_eq_dec : EqDecision Action.
Proof. solve_decision. Defined.

Section ParserState.
Context {V : Type}.
(** [gtnlplib.constants.NULL_STACK_TOK] and the representation stored
    with the NULL sentinel; both are supplied by the package. *)
Variable NULL_STACK_TOK : string.
Variable null_embed : V.
(** The external combiner: head representation, modifier representation. *)
Variable combine : V -> V -> V.

(** Modelled from the spec: a stack or buffer slot stores the surface
    string of a token, its position in the sentence (arcs are pairs of
    positions) and its current representation; the class is not part of
    the given sources. *)
Record Token : Type := mkToken {
  surface : string;
  index : nat;
  repr : V;
}.

(** Modelled from the spec: the ParserState class (stack with the top in
    front, buffer with the next token to shift in front, set of arcs as
    (head position, modifier position)); the class is not part of the
    given sources. *)
Record ParserState : Type := mkState {
  stack : list Token;
  buffer : list Token;
  arcs : gset (nat * nat);
}.

(** Modelled from the spec: the tuple an entry is seen as, with the
    representation at position 2 as the extractor reads it. *)
Definition entry_of_token (t : Token) : entry V :=
  [VStr (surface t); VInt (Z.of_nat (index t)); VRep (repr t)].

(** Modelled from the spec: the NULL sentinel (string and vector; it has
    no position in the sentence). *)
Definition null_entry : entry V :=
  [VStr NULL_STACK_TOK; VNone; VRep null_embed].

(** Modelled from the spec: the first [n] entries, nearest first, padded
    with the sentinel to exactly [n]. *)
Definition peek_n (n : nat) (l : list Token) : list (entry V) :=
  (entry_of_token <$> take n l) ++ replicate (n - length l) null_entry.

(** Modelled from the spec: [ParserState.stack_peek_n], a pure read. *)
Definition ps_stack_peek_n (n : nat) : M ParserState (list (entry V)) :=
  s <- get ;; ret (peek_n n (stack s)).

(** Modelled from the spec: [ParserState.input_buffer_peek_n], the same
    contract on the front of the buffer. *)
Definition ps_input_buffer_peek_n (n : nat) : M ParserState (list (entry V)) :=
  s <- get ;; ret (peek_n n (buffer s)).

#[global] Instance ParserState_Peekable : FeatExtractors.Peekable V ParserState := {|
  FeatExtractors.stack_peek_n := ps_stack_peek_n;
  FeatExtractors.input_buffer_peek_n := ps_input_buffer_peek_n;
|}.

(** Modelled from the spec: [shift()] moves the front buffer token onto
    the stack and fails on an empty buffer. *)
Definition shift : M ParserState unit := fun s =>
  match buffer s with
  | [] => (Raise IllegalActionError, s)
  | t :: b => (Ok tt, {| stack := t :: stack s; buffer := b; arcs := arcs s |})
  end.

(** Modelled from the spec: the token pushed by a reduction carries the
    head's surface form and position and the combined representation. *)
Definition combined (head modifier : Token) : Token :=
  {| surface := surface head; index := index head;
     repr := combine (repr head) (repr modifier) |}.

(** Modelled from the spec: [reduce_left()], top is the head and the
    second entry the modifier. *)
Definition reduce_left : M ParserState unit := fun s =>
  match stack s with
  | a :: b :: rest =>
      (Ok tt, {| stack := combined a b :: rest; buffer := buffer s;
                 arcs := {[ (index a, index b) ]} ∪ arcs s |})
  | _ => (Raise IllegalActionError, s)
  end.

(** Modelled from the spec: [reduce_right()], the second entry is the
    head and the top the modifier. *)
Definition reduce_right : M ParserState unit := fun s =>
  match stack s with
  | a :: b :: rest =>
      (Ok tt, {| stack := combined b a :: rest; buffer := buffer s;
                 arcs := {[ (index b, index a) ]} ∪ arcs s |})
  | _ => (Raise IllegalActionError, s)
  end.

(** Modelled from the spec: the transition function of section 4.2. *)
Definition apply_action (a : Action) : M ParserState unit :=
  match a with
  | SHIFT => shift
  | REDUCE_L => reduce_left
  | REDUCE_R => reduce_right
  end.

(** Modelled from the spec: the precondition column of the transition
    table. *)
Definition precondition (a : Action) (s : ParserState) : bool :=
  match a with
  | SHIFT => negb (bool_decide (buffer s = []))
  | REDUCE_L | REDUCE_R => bool_decide (2 <= length (stack s))
  end.

(** Modelled from the spec: the legal-action filter, listed in the
    priority order SHIFT, REDUCE_L, REDUCE_R. *)
Definition legal_actions (s : ParserState) : list Action :=
  List.filter (fun a => precondition a s) [SHIFT; REDUCE_L; REDUCE_R].

(** Modelled from the spec: [done], buffer empty and one stack entry. *)
Definition is_done (s : ParserState) : bool :=
  bool_decide (buffer s = []) && bool_decide (length (stack s) = 1).

(** Modelled from the spec: the state a sentence starts from; each word
    comes with the representation the embedding collaborator gave it. *)
Definition initial_state (sentence : list (string * V)) : ParserState :=
  {| stack := [];
     buffer := imap (fun i wv => mkToken (fst wv) i (snd wv)) sentence;
     arcs := ∅ |}.

Section DecodingLoop.
(** Scores of the external action scorer and their strict order. *)
Variable Score : Type.
Variable score_lt : Score -> Score -> bool.
Variable score_actions : list (value V) -> Action -> Score.

(** Modelled from the spec: argmax over the legal actions, an earlier
    action in the priority order winning a tie.  With nothing legal
    every action is masked alike and the first one is returned. *)
Definition better (sc : Action -> Score) (best a : Action) : Action :=
  if score_lt (sc best) (sc a) then a else best.

Definition select_greedy (sc : Action -> Score) (legal : list Action) : Action :=
  match legal with
  | [] => SHIFT
  | a :: rest => fold_left (better sc) rest a
  end.

(** Modelled from the spec: step 1.d of the decoding loop.  [gold] is
    [None] at inference and the rest of the gold derivation under
    teacher forcing. *)
Definition choose (gold : option (list Action)) (legal : list Action)
    (sc : Action -> Score) : res (Action * option (list Action)) :=
  match gold with
  | None => Ok (select_greedy sc legal, None)
  | Some [] => Raise MalformedGoldDerivationError
  | Some (g :: gs) =>
      if bool_decide (g ∈ legal) then Ok (g, Some gs)
      else Raise MalformedGoldDerivationError
  end.

Inductive outcome : Type :=
| Finished (s : ParserState) (actions : list Action)
| Aborted (e : exn) (s : ParserState)
| OutOfFuel.

(** Modelled from the spec: the decoding loop of section 4.4; [fuel]
    bounds the number of iterations and [trace] is the action sequence
    so far, latest first. *)
Fixpoint decode (fuel : nat) (gold : option (list Action))
    (trace : list Action) (s : ParserState) : outcome :=
  if is_done s then Finished s (rev trace) else
  match fuel with
  | 0 => OutOfFuel
  | S fuel' =>
      match FeatExtractors.get_features ∅ s with
      | (Raise e, s1) => Aborted e s1
      | (Ok feats, s1) =>
          match choose gold (legal_actions s1) (score_actions feats) with
          | Raise e => Aborted e s1
          | Ok (a, gold') =>
              match apply_action a s1 with
              | (Raise e, s2) => Aborted e s2
              | (Ok _, s2) => decode fuel' gold' (a :: trace) s2
              end
          end
      end
  end.

(** Modelled from the spec: parsing one sentence.  A sentence of [N]
    tokens needs [N] shifts and [N - 1] reductions. *)
Definition parse (gold : option (list Action)) (sentence : list (string * V)) : outcome :=
  decode (2 * length sentence) gold [] (initial_state sentence).
End DecodingLoop.
End ParserState.

End Parser.

(** ** The part of torch the networks use *)

Module Torch.

(** Floating-point scalars and the scalar functions of the networks.  No
    law is assumed of them: the properties below are about shapes and
    about the flow of state, not about numeric values. *)
Class Scalar (R : Type) := {
  r0 : R;
  radd : R -> R -> R;
  rsub : R -> R -> R;
  rmul : R -> R -> R;
  rtanh : R -> R;
  rsigmoid : R -> R;
  rrelu : R -> R;
  rexp : R -> R;
  rlog : R -> R;
  (** [F.dropout] with probability [p] on the features passed between
      LSTM layers; the mask it draws is left to the instance. *)
  rdropout : R -> list R -> list R;
}.

(** The result of a torch call outside any object state. *)
Definition call (A : Type) : Type := res A.

Definition cbind {A B} (c : call A) (k : A -> call B) : call B :=
  match c with
  | Ok a => k a
  | Raise e => Raise e
  end.

Section Tensors.
Context {R : Type} `{!Scalar R}.

(** A tensor: its shape and its elements in row-major order. *)
Record Tensor : Type := mkTensor {
  shape : list nat;
  data : list R;
}.

Definition numel_of (sizes : list nat) : nat := fold_right Nat.mul 1 sizes.
Definition numel (t : Tensor) : nat := numel_of (shape t).

(** The storage of a tensor holds [numel] elements. *)
Definition well_formed (t : Tensor) : Prop := length (data t) = numel t.

(** [torch.zeros(sizes)] and [FloatTensor(sizes).zero_()]. *)
Definition zeros (sizes : list nat) : Tensor :=
  {| shape := sizes; data := replicate (numel_of sizes) r0 |}.

(** [Variable.resize(sizes)]: the out-of-place resize refuses to change
    the number of elements. *)
Definition resize (sizes : list nat) (t : Tensor) : call Tensor :=
  if numel t =? numel_of sizes then Ok {| shape := sizes; data := data t |}
  else Raise RuntimeError.

(** Elementwise application, as [F.tanh] and [F.relu]. *)
Definition pointwise (f : R -> R) (t : Tensor) : Tensor :=
  {| shape := shape t; data := f <$> data t |}.

Definition rsum (l : list R) : R := fold_right radd r0 l.

(** The product of row [w] of a weight matrix with the vector [x]. *)
Definition dot (w : nat -> R) (x : list R) : R :=
  rsum (imap (fun i xi => rmul (w i) xi) x).

(** The [i]-th row of width [k] of a storage. *)
Definition row (k : nat) (l : list R) (i : nat) : list R :=
  take k (drop (i * k) l).

(** [nn.Linear(in_features, out_features)]; the weight matrix and the
    bias are given by their entries. *)
Record Linear : Type := mkLinear {
  in_features : nat;
  out_features : nat;
  weight : nat -> nat -> R;
  bias : nat -> R;
}.

Definition affine (l : Linear) (x : list R) : list R :=
  (fun j => radd (dot (weight l j) x) (bias l j)) <$> seq 0 (out_features l).

(** [Linear.forward]: the last dimension of the input must be
    [in_features] and is replaced by [out_features]. *)
Definition linear_forward (l : Linear) (x : Tensor) : call Tensor :=
  match rev (shape x) with
  | d :: lead =>
      if d =? in_features l then
        Ok {| shape := rev lead ++ [out_features l];
              data := flat_map (fun i => affine l (row d (data x) i))
                        (seq 0 (numel_of lead)) |}
      else Raise RuntimeError
  | [] => Raise RuntimeError
  end.

(** [F.log_softmax] of one row. *)
Definition log_softmax_row (x : list R) : list R :=
  let norm := rlog (rsum (rexp <$> x)) in
  (fun xi => rsub xi norm) <$> x.

(** [F.log_softmax(x)] on a matrix: the implicit dimension is the last
    one, so every row is normalised. *)
Definition log_softmax (x : Tensor) : Tensor :=
  match rev (shape x) with
  | d :: lead =>
      {| shape := shape x;
         data := flat_map (fun i => log_softmax_row (row d (data x) i))
                   (seq 0 (numel_of lead)) |}
  | [] => x
  end.

(** Modelled from the spec: [utils.concat_and_flatten], which is not part
    of the given sources: the items concatenated into one long row
    vector. *)
Definition concat_and_flatten (items : list Tensor) : Tensor :=
  {| shape := [1; sum_list (numel <$> items)];
     data := concat (data <$> items) |}.

(** [nn.LSTM(input_size, hidden_size, num_layers, dropout,
    bidirectional)]; the weights of layer [l] and direction [d] are given
    by their entries, the four gates stacked as input, forget, cell and
    output. *)
Record LSTM : Type := mkLSTM {
  input_size : nat;
  hidden_size : nat;
  lstm_layers : nat;
  dropout : R;
  bidirectional : bool;
  w_ih : nat -> nat -> nat -> nat -> R;
  w_hh : nat -> nat -> nat -> nat -> R;
  b_ih : nat -> nat -> nat -> R;
  b_hh : nat -> nat -> nat -> R;
}.

Definition num_directions (m : LSTM) : nat := if bidirectional m then 2 else 1.

Definition gate (m : LSTM) (l d k : nat) (x h : list R) (j : nat) : R :=
  let u := k * hidden_size m + j in
  radd (radd (dot (w_ih m l d u) x) (b_ih m l d u))
       (radd (dot (w_hh m l d u) h) (b_hh m l d u)).

(** One time step of one layer in one direction. *)
Definition lstm_cell (m : LSTM) (l d : nat) (x : list R) (hc : list R * list R)
    : list R * list R :=
  let '(h, c) := hc in
  let units := seq 0 (hidden_size m) in
  let c' := (fun j =>
               radd (rmul (rsigmoid (gate m l d 1 x h j)) (nth j c r0))
                    (rmul (rsigmoid (gate m l d 0 x h j))
                          (rtanh (gate m l d 2 x h j)))) <$> units in
  let h' := (fun j =>
               rmul (rsigmoid (gate m l d 3 x h j)) (rtanh (nth j c' r0))) <$> units in
  (h', c').

(** The steps of one direction over the inputs in the order given: the
    hidden state after each step, and the last state. *)
Fixpoint lstm_steps (m : LSTM) (l d : nat) (xs : list (list R))
    (hc : list R * list R) : list (list R) * (list R * list R) :=
  match xs with
  | [] => ([], hc)
  | x :: xs' =>
      let hc' := lstm_cell m l d x hc in
      let '(outs, last) := lstm_steps m l d xs' hc' in
      (fst hc' :: outs, last)
  end.

(** Direction 0 reads the sequence forwards, direction 1 backwards; the
    outputs are reported in the order of the sequence either way. *)
Definition lstm_direction (m : LSTM) (l d : nat) (xs : list (list R))
    (hc : list R * list R) : list (list R) * (list R * list R) :=
  if d =? 0 then lstm_steps m l d xs hc
  else let '(outs, last) := lstm_steps m l d (rev xs) hc in (rev outs, last).

(** The initial state of layer [l], direction [d], cut from [h_0], [c_0]. *)
Definition initial_of (m : LSTM) (h0 c0 : Tensor) (l d : nat) : list R * list R :=
  let i := l * num_directions m + d in
  (row (hidden_size m) (data h0) i, row (hidden_size m) (data c0) i).

(** One layer: every direction is run over the whole sequence and the
    per-step outputs of the directions are joined. *)
Definition lstm_layer (m : LSTM) (h0 c0 : Tensor) (l : nat) (xs : list (list R))
    : list (list R) * list (list R * list R) :=
  let runs := (fun d => lstm_direction m l d xs (initial_of m h0 c0 l d))
                <$> seq 0 (num_directions m) in
  (imap (fun t _ => flat_map (fun r => nth t (fst r) []) runs) xs, snd <$> runs).

(** The stack of layers from layer [l] on; dropout is applied to what a
    layer passes on to the next one. *)
Fixpoint lstm_stack (m : LSTM) (h0 c0 : Tensor) (n l : nat) (xs : list (list R))
    : list (list R) * list (list R * list R) :=
  match n with
  | 0 => (xs, [])
  | S n' =>
      let '(outs, finals) := lstm_layer m h0 c0 l xs in
      match n' with
      | 0 => (outs, finals)
      | S _ =>
          let '(outs', finals') :=
            lstm_stack m h0 c0 n' (S l) (rdropout (dropout m) <$> outs) in
          (outs', finals ++ finals')
      end
  end.

(** [LSTM.forward(input, (h_0, c_0))] for the batch size 1 the networks
    use: [input] is (seq_len, 1, input_size), the states are
    (num_layers * num_directions, 1, hidden_size); the result is the
    output (seq_len, 1, num_directions * hidden_size) and (h_n, c_n). *)
Definition lstm_forward (m : LSTM) (input : Tensor) (hidden : Tensor * Tensor)
    : call (Tensor * (Tensor * Tensor)) :=
  let '(h0, c0) := hidden in
  let state_size := [lstm_layers m * num_directions m; 1; hidden_size m] in
  match shape input with
  | [seq_len; 1; width] =>
      if bool_decide (width = input_size m ∧ shape h0 = state_size ∧ shape c0 = state_size)
      then
        let xs := row width (data input) <$> seq 0 seq_len in
        let '(outs, finals) := lstm_stack m h0 c0 (lstm_layers m) 0 xs in
        Ok ({| shape := [seq_len; 1; num_directions m * hidden_size m];
               data := concat outs |},
            ({| shape := state_size; data := concat (fst <$> finals) |},
             {| shape := state_size; data := concat (snd <$> finals) |}))
      else Raise RuntimeError
  | _ => Raise RuntimeError
  end.

(** Iterating a tensor yields its slices along the first dimension. *)
Definition slices (t : Tensor) : list Tensor :=
  match shape t with
  | n :: rest =>
      (fun i => {| shape := rest; data := row (numel_of rest) (data t) i |}) <$> seq 0 n
  | [] => []
  end.

(** [nn.Embedding(num_embeddings, embedding_dim)] applied to a list of
    indices: one row of the table per index. *)
Record Embedding : Type := mkEmbedding {
  num_embeddings : nat;
  embedding_dim_of : nat;
  table : nat -> nat -> R;
}.

Definition embedding_forward (e : Embedding) (ixs : list nat) : call Tensor :=
  if forallb (fun i => i <? num_embeddings e) ixs then
    Ok {| shape := [length ixs; embedding_dim_of e];
          data := flat_map (fun i => table e i <$> seq 0 (embedding_dim_of e)) ixs |}
  else Raise RuntimeError.
End Tensors.
Global Arguments Tensor R : clear implicits.
Global Arguments Linear R : clear implicits.
Global Arguments LSTM R : clear implicits.
Global Arguments Embedding R : clear implicits.

End Torch.

(** ** neural_net.py *)

Module NeuralNet.
Import Torch.

(** *** Initial embedding components *)

Module VanillaWordEmbeddingLookup.
Section Def.
Context {R : Type}.
(** [utils.sequence_to_variable], as for the BiLSTM lookup below. *)
Variable sequence_to_variable : list string -> gmap string nat -> bool -> Torch.call (list nat).

Record t : Type := mk {
  word_to_ix : gmap string nat;
  embedding_dim : nat;
  use_cuda : bool;
  output_dim : nat;
  word_embeddings : Embedding R;
}.

(** [__init__]; the freshly drawn entries of the embedding table are an
    argument. *)
Definition __init__ (word_to_ix : gmap string nat) (embedding_dim : nat)
    (table : nat -> nat -> R) : t :=
  {| word_to_ix := word_to_ix;
     embedding_dim := embedding_dim;
     use_cuda := false;
     output_dim := embedding_dim;
     word_embeddings := mkEmbedding (size word_to_ix) embedding_dim table |}.

(** [forward]: the table is applied to one index of [inp] at a time. *)
Definition forward (sentence : list string) : M t (list (Tensor R)) :=
  self <- get ;;
  inp <- lift (sequence_to_variable sentence (word_to_ix self) (use_cuda self)) ;;
  comprehension (fun i => lift (embedding_forward (word_embeddings self) [i])) inp.
End Def.
Global Arguments t R : clear implicits.
End VanillaWordEmbeddingLookup.

Module BiLSTMWordEmbeddingLookup.
Section Def.
Context {R : Type} `{!Scalar R}.
(** [utils.sequence_to_variable(sentence, word_to_ix, use_cuda)] is not
    part of the given sources; it turns the words into the indices handed
    to the embedding table. *)
Variable sequence_to_variable : list string -> gmap string nat -> bool -> call (list nat).

Record t : Type := mk {
  word_to_ix : option (gmap string nat);
  num_layers : nat;
  word_embedding_dim : nat;
  hidden_dim : nat;
  use_cuda : bool;
  output_dim : nat;
  word_embeddings : Embedding R;
  lstm : LSTM R;
  hidden : Tensor R * Tensor R;
}.

Definition set_hidden (self : t) (h : Tensor R * Tensor R) : t :=
  mk (word_to_ix self) (num_layers self) (word_embedding_dim self) (hidden_dim self)
     (use_cuda self) (output_dim self) (word_embeddings self) (lstm self) h.

(** [init_hidden]: both branches build zero states of the same size; the
    division is the integer division of the source's Python. *)
Definition init_hidden (self : t) : Tensor R * Tensor R :=
  if use_cuda self then
    (zeros [num_layers self * 2; 1; hidden_dim self / 2],
     zeros [num_layers self * 2; 1; hidden_dim self / 2])
  else
    (zeros [num_layers self * 2; 1; hidden_dim self / 2],
     zeros [num_layers self * 2; 1; hidden_dim self / 2]).

(** [__init__]; the freshly drawn entries of the embedding table and of
    the LSTM weights are arguments.  [hidden] is assigned last, from
    [init_hidden] on the object built so far. *)
Definition __init__ (word_to_ix : gmap string nat)
    (word_embedding_dim hidden_dim num_layers : nat) (dropout : R)
    (table : nat -> nat -> R)
    (w_ih w_hh : nat -> nat -> nat -> nat -> R) (b_ih b_hh : nat -> nat -> nat -> R) : t :=
  let self :=
    {| word_to_ix := Some word_to_ix;
       num_layers := num_layers;
       word_embedding_dim := word_embedding_dim;
       hidden_dim := hidden_dim;
       use_cuda := false;
       output_dim := hidden_dim;
       word_embeddings := mkEmbedding (size word_to_ix) word_embedding_dim table;
       lstm := mkLSTM word_embedding_dim (hidden_dim / 2) num_layers dropout true
                 w_ih w_hh b_ih b_hh;
       hidden := (zeros [], zeros []) |} in
  set_hidden self (init_hidden self).

Definition forward (sentence : list string) : M t (list (Tensor R)) :=
  self <- get ;;
  dict <- match word_to_ix self with
          | Some d => ret d
          | None => raise AssertionError
          end ;;
  inp <- lift (sequence_to_variable sentence dict (use_cuda self)) ;;
  emb <- lift (embedding_forward (word_embeddings self) inp) ;;
  input <- lift (resize [length sentence; 1; word_embedding_dim self] emb) ;;
  out <- lift (lstm_forward (lstm self) input (hidden self)) ;;
  _ <- put (set_hidden self (snd out)) ;;
  ret (slices (fst out)).

Definition clear_hidden_state : M t unit :=
  self <- get ;; put (set_hidden self (init_hidden self)).
End Def.
Global Arguments t R : clear implicits.
End BiLSTMWordEmbeddingLookup.

(** *** Combiner network components *)

Module MLPCombinerNetwork.
Section Def.
Context {R : Type} `{!Scalar R}.

Record t : Type := mk {
  first_layer : Linear R;
  second_layer : Linear R;
}.

Definition __init__ (embedding_dim : nat)
    (w1 : nat -> nat -> R) (b1 : nat -> R) (w2 : nat -> nat -> R) (b2 : nat -> R) : t :=
  {| first_layer := mkLinear (2 * embedding_dim) embedding_dim w1 b1;
     second_layer := mkLinear embedding_dim embedding_dim w2 b2 |}.

Definition forward (self : t) (head_embed modifier_embed : Tensor R) : call (Tensor R) :=
  cbind (linear_forward (first_layer self)
           (concat_and_flatten [head_embed; modifier_embed]))
    (fun a => linear_forward (second_layer self) (pointwise rtanh a)).
End Def.
Global Arguments t R : clear implicits.
End MLPCombinerNetwork.

Module LSTMCombinerNetwork.
Section Def.
Context {R : Type} `{!Scalar R}.

Record t : Type := mk {
  embedding_dim : nat;
  num_layers : nat;
  use_cuda : bool;
  lstm : LSTM R;
  hidden : Tensor R * Tensor R;
}.

Definition set_hidden (self : t) (h : Tensor R * Tensor R) : t :=
  mk (embedding_dim self) (num_layers self) (use_cuda self) (lstm self) h.

Definition init_hidden (self : t) : Tensor R * Tensor R :=
  if use_cuda self then
    (zeros [num_layers self; 1; embedding_dim self],
     zeros [num_layers self; 1; embedding_dim self])
  else
    (zeros [num_layers self; 1; embedding_dim self],
     zeros [num_layers self; 1; embedding_dim self]).

(** [__init__]; the freshly drawn LSTM weights are arguments, and
    [hidden] is assigned last, from [init_hidden]. *)
Definition __init__ (embedding_dim num_layers : nat) (dropout : R)
    (w_ih w_hh : nat -> nat -> nat -> nat -> R) (b_ih b_hh : nat -> nat -> nat -> R) : t :=
  let self :=
    {| embedding_dim := embedding_dim;
       num_layers := num_layers;
       use_cuda := false;
       lstm := mkLSTM (embedding_dim * 2) embedding_dim num_layers dropout false
                 w_ih w_hh b_ih b_hh;
       hidden := (zeros [], zeros []) |} in
  set_hidden self (init_hidden self).

(** [forward]: [self.hidden] is assigned once the LSTM has returned,
    before the final resize. *)
Definition forward (head_embed modifier_embed : Tensor R) : M t (Tensor R) :=
  self <- get ;;
  input <- lift (resize [num_layers self; 1; embedding_dim self * 2]
                   (concat_and_flatten [head_embed; modifier_embed])) ;;
  out <- lift (lstm_forward (lstm self) input (hidden self)) ;;
  _ <- put (set_hidden self (snd out)) ;;
  lift (resize [num_layers self; embedding_dim self] (fst (snd out))).

Definition clear_hidden_state : M t unit :=
  self <- get ;; put (set_hidden self (init_hidden self)).
End Def.
Global Arguments t R : clear implicits.
End LSTMCombinerNetwork.

(** *** Action choosing components *)

Module ActionChooserNetwork.
Section Def.
Context {R : Type} `{!Scalar R}.

Record t : Type := mk {
  first_layer : Linear R;
  second_layer : Linear R;
}.

Definition __init__ (input_dim : nat)
    (w1 : nat -> nat -> R) (b1 : nat -> R) (w2 : nat -> nat -> R) (b2 : nat -> R) : t :=
  {| first_layer := mkLinear input_dim input_dim w1 b1;
     second_layer := mkLinear input_dim 3 w2 b2 |}.

Definition forward (self : t) (inputs : list (Tensor R)) : call (Tensor R) :=
  cbind (linear_forward (first_layer self) (concat_and_flatten inputs))
    (fun a => cbind (linear_forward (second_layer self) (pointwise rrelu a))
    (fun b => Ok (log_softmax b))).
End Def.
Global Arguments t R : clear implicits.
End ActionChooserNetwork.

End NeuralNet.

(** ** Vocabulary of the statements *)

Module Props.
Import FeatExtractors Parser.

Section Extractor.
Context {V : Type}.

(** The representation of an entry that may be missing, the sentinel's
    standing in for it. *)
Definition rep_or_null (null_embed : V) (o : option (@Token V)) : value V :=
  match o with
  | Some t => VRep (repr t)
  | None => VRep null_embed
  end.

(** An entry carries a representation at position 2. *)
Definition has_rep (e : entry V) : Prop := ∃ v, e !! 2 = Some (VRep v).

(** An entry has the three components the extractor indexes into. *)
Definition wide (e : entry V) : Prop := 3 <= length e.
End Extractor.

Section StateMachine.
Context {V : Type}.

(** The sentence positions of the tokens still on the stack or in the
    buffer. *)
Definition live (s : @ParserState V) : list nat :=
  (index <$> stack s) ++ (index <$> buffer s).

(** What every state of a parse of [N] tokens satisfies: the live
    positions are pairwise different, no live position is the modifier of
    a recorded arc, and arcs, stack and buffer together account for the
    [N] tokens. *)
Record consistent (N : nat) (s : @ParserState V) : Prop := {
  live_nodup : NoDup (live s);
  arcs_dead : ∀ h m, (h, m) ∈ arcs s → m ∉ live s;
  conserved : size (arcs s) + length (stack s) + length (buffer s) = N;
}.

(** The number of transitions a state is away from completion, plus one:
    a buffered token is still to be shifted and to be reduced. *)
Definition distance (s : @ParserState V) : nat :=
  2 * length (buffer s) + length (stack s).
End StateMachine.

(** Histories of calls on the stateful networks: the state an instance is
    in after a sequence of [forward] and [clear_hidden_state] calls,
    whether the calls returned or raised. *)
Section Histories.
Import Torch NeuralNet.
Context {R : Type} `{!Scalar R}.

Inductive embed_call : Type :=
| EmbedForward (sentence : list string)
| EmbedClear.

Definition embed_step
    (sequence_to_variable : list string → gmap string nat → bool → call (list nat))
    (self : BiLSTMWordEmbeddingLookup.t R) (c : embed_call) : BiLSTMWordEmbeddingLookup.t R :=
  match c with
  | EmbedForward sentence =>
      snd (BiLSTMWordEmbeddingLookup.forward sequence_to_variable sentence self)
  | EmbedClear => snd (BiLSTMWordEmbeddingLookup.clear_hidden_state self)
  end.

Definition embed_after
    (sequence_to_variable : list string → gmap string nat → bool → call (list nat))
    (calls : list embed_call) (self : BiLSTMWordEmbeddingLookup.t R)
    : BiLSTMWordEmbeddingLookup.t R :=
  fold_left (embed_step sequence_to_variable) calls self.

Inductive combiner_call : Type :=
| CombineForward (head_embed modifier_embed : Tensor R)
| CombineClear.

Definition combiner_step (self : LSTMCombinerNetwork.t R) (c : combiner_call)
    : LSTMCombinerNetwork.t R :=
  match c with
  | CombineForward head_embed modifier_embed =>
      snd (LSTMCombinerNetwork.forward head_embed modifier_embed self)
  | CombineClear => snd (LSTMCombinerNetwork.clear_hidden_state self)
  end.

Definition combiner_after (calls : list combiner_call) (self : LSTMCombinerNetwork.t R)
    : LSTMCombinerNetwork.t R :=
  fold_left combiner_step calls self.
End Histories.

(** What the states of an LSTM combiner built for embeddings of width [D]
    with [L] layers have in common: the configuration, and the shape of
    the two halves of the hidden state. *)
Definition combiner_shaped {R : Type} `{!Torch.Scalar R} (D L : nat)
    (self : NeuralNet.LSTMCombinerNetwork.t R) : Prop :=
  NeuralNet.LSTMCombinerNetwork.embedding_dim self = D
  ∧ NeuralNet.LSTMCombinerNetwork.num_layers self = L
  ∧ Torch.input_size (NeuralNet.LSTMCombinerNetwork.lstm self) = D * 2
  ∧ Torch.hidden_size (NeuralNet.LSTMCombinerNetwork.lstm self) = D
  ∧ Torch.lstm_layers (NeuralNet.LSTMCombinerNetwork.lstm self) = L
  ∧ Torch.bidirectional (NeuralNet.LSTMCombinerNetwork.lstm self) = false
  ∧ Torch.shape (fst (NeuralNet.LSTMCombinerNetwork.hidden self)) = [L; 1; D]
  ∧ Torch.shape (snd (NeuralNet.LSTMCombinerNetwork.hidden self)) = [L; 1; D].

(** Integer scalars, to run the networks on concrete inputs. *)
Definition Z_scalar : Torch.Scalar Z := {|
  Torch.r0 := 0%Z;
  Torch.radd := Z.add;
  Torch.rsub := Z.sub;
  Torch.rmul := Z.mul;
  Torch.rtanh := Z.sgn;
  Torch.rsigmoid := fun x => (if 0 <? x then 1 else 0)%Z;
  Torch.rrelu := Z.max 0;
  Torch.rexp := Z.pow 2;
  Torch.rlog := Z.log2;
  Torch.rdropout := fun _ xs => xs;
|}.

(** What the states of a BiLSTM lookup built for [L] layers and outputs of
    width [H] have in common: the dictionary, the configuration, and the
    shape of the two halves of the hidden state. *)
Definition embed_shaped {R : Type} `{!Torch.Scalar R} (dict : gmap string nat)
    (E L H : nat) (self : NeuralNet.BiLSTMWordEmbeddingLookup.t R) : Prop :=
  NeuralNet.BiLSTMWordEmbeddingLookup.word_to_ix self = Some dict
  ∧ NeuralNet.BiLSTMWordEmbeddingLookup.num_layers self = L
  ∧ NeuralNet.BiLSTMWordEmbeddingLookup.hidden_dim self = H
  ∧ NeuralNet.BiLSTMWordEmbeddingLookup.word_embedding_dim self = E
  ∧ NeuralNet.BiLSTMWordEmbeddingLookup.output_dim self = H
  ∧ Torch.num_embeddings (NeuralNet.BiLSTMWordEmbeddingLookup.word_embeddings self)
    = size dict
  ∧ Torch.embedding_dim_of (NeuralNet.BiLSTMWordEmbeddingLookup.word_embeddings self) = E
  ∧ Torch.input_size (NeuralNet.BiLSTMWordEmbeddingLookup.lstm self) = E
  ∧ Torch.hidden_size (NeuralNet.BiLSTMWordEmbeddingLookup.lstm self) = H / 2
  ∧ Torch.lstm_layers (NeuralNet.BiLSTMWordEmbeddingLookup.lstm self) = L
  ∧ Torch.bidirectional (NeuralNet.BiLSTMWordEmbeddingLookup.lstm self) = true
  ∧ Torch.shape (fst (NeuralNet.BiLSTMWordEmbeddingLookup.hidden self)) = [L * 2; 1; H / 2]
  ∧ Torch.shape (snd (NeuralNet.BiLSTMWordEmbeddingLookup.hidden self)) = [L * 2; 1; H / 2].

(** A stand-in for a parser state, to run the extractor on: it answers the
    peeks from two fixed outcomes and counts the peeks performed. *)
Record probe : Type := mkProbe {
  probe_stack : res (list (entry Z));
  probe_buffer : res (list (entry Z));
  probe_peeks : nat;
}.

Definition probe_bump (p : probe) : probe :=
  {| probe_stack := probe_stack p; probe_buffer := probe_buffer p;
     probe_peeks := S (probe_peeks p) |}.

Definition probe_Peekable : FeatExtractors.Peekable Z probe := {|
  FeatExtractors.stack_peek_n := fun _ p => (probe_stack p, probe_bump p);
  FeatExtractors.input_buffer_peek_n := fun _ p => (probe_buffer p, probe_bump p);
|}.

(** A dictionary-based [sequence_to_variable], to run the lookups on: a
    word that is not in the dictionary raises. *)
Definition lookup_words (sentence : list string) (dict : gmap string nat) (_ : bool)
    : Torch.call (list nat) :=
  match mapM (fun w => dict !! w) sentence with
  | Some ixs => Ok ixs
  | None => Raise RuntimeError
  end.

(** Two small dictionaries: one with its two words numbered 0 and 1, one
    whose only word has an index beyond its size. *)
Definition two_words : gmap string nat := <["the" := 0]> (<["dog" := 1]> ∅).
Definition one_word : gmap string nat := <["the" := 5]> ∅.

(** Dropout masks.  [nn.LSTM] is in training mode once constructed and
    draws new masks at every call of [forward]; a call is therefore run
    with the scalars [with_masks ops masks], where [masks] is what the
    generator drew for that call. *)
Definition with_masks {R : Type} (ops : Torch.Scalar R) (masks : R → list R → list R)
    : Torch.Scalar R := {|
  Torch.r0 := @Torch.r0 R ops;
  Torch.radd := @Torch.radd R ops;
  Torch.rsub := @Torch.rsub R ops;
  Torch.rmul := @Torch.rmul R ops;
  Torch.rtanh := @Torch.rtanh R ops;
  Torch.rsigmoid := @Torch.rsigmoid R ops;
  Torch.rrelu := @Torch.rrelu R ops;
  Torch.rexp := @Torch.rexp R ops;
  Torch.rlog := @Torch.rlog R ops;
  Torch.rdropout := masks;
|}.

(** Histories of calls in which every call comes with the masks drawn for
    it. *)
Definition embed_after_drawing {R : Type} (ops : Torch.Scalar R)
    (sequence_to_variable : list string → gmap string nat → bool → Torch.call (list nat))
    (calls : list ((R → list R → list R) * embed_call))
    (self : NeuralNet.BiLSTMWordEmbeddingLookup.t R) : NeuralNet.BiLSTMWordEmbeddingLookup.t R :=
  fold_left
    (fun s mc => @embed_step R (with_masks ops (fst mc)) sequence_to_variable s (snd mc))
    calls self.

Definition combiner_after_drawing {R : Type} (ops : Torch.Scalar R)
    (calls : list ((R → list R → list R) * @combiner_call R))
    (self : NeuralNet.LSTMCombinerNetwork.t R) : NeuralNet.LSTMCombinerNetwork.t R :=
  fold_left (fun s mc => @combiner_step R (with_masks ops (fst mc)) s (snd mc)) calls self.

(** Two draws: every unit kept, every unit dropped. *)
Definition keep_all (_ : Z) (xs : list Z) : list Z := xs.
Definition drop_all (_ : Z) (xs : list Z) : list Z := (fun _ => 0%Z) <$> xs.

End Props.

(** ** Properties of the feature extractor *)

Import FeatExtractors Parser Props.

Section ExtractorFacts.
Context {V S : Type} `{!Peekable V S}.

Lemma getitem_ok {T A} (l : list A) (i : nat) (s : T) :
  getitem l i s = (match l !! i with Some x => Ok x | None => Raise IndexError end, s).
Proof. unfold getitem. destruct (l !! i); reflexivity. Qed.

(** The comprehension over the peeked stack entries neither reads nor
    writes the state; it succeeds exactly when every entry is wide. *)
Lemma comprehension_getitem (l : list (entry V)) (s : S) :
  ∃ r, comprehension (fun stackEntry => getitem stackEntry 2) l s = (r, s)
       ∧ (is_ok r = true ↔ Forall wide l)
       ∧ (∀ feats, r = Ok feats → Forall2 (fun e x => e !! 2 = Some x) l feats).
Proof.
  induction l as [|e l IH]; simpl.
  - eexists; split; [reflexivity|]. split.
    + split; intros; [constructor | reflexivity].
    + intros feats [= <-]. constructor.
  - destruct IH as (r & Hr & Hok & Hval).
    unfold bind at 1. rewrite getitem_ok.
    destruct (e !! 2) as [x|] eqn:E.
    + unfold bind. rewrite Hr. destruct r as [ys|err]; simpl in *.
      * eexists; split; [reflexivity|]. split.
        -- split; [intros _|reflexivity]. constructor.
           ++ unfold wide. apply lookup_lt_Some in E. lia.
           ++ apply Hok. reflexivity.
        -- intros feats [= <-]. constructor; [exact E|]. apply Hval. reflexivity.
      * eexists; split; [reflexivity|]. split.
        -- split; [discriminate|]. intros Hall. apply Forall_cons in Hall as [_ Hall].
           apply Hok in Hall. discriminate.
        -- discriminate.
    + eexists; split; [reflexivity|]. split.
      * split; [discriminate|]. intros Hall. apply Forall_cons in Hall as [Hw _].
        unfold wide in Hw. apply lookup_ge_None in E. lia.
      * discriminate.
Qed.

(** The only exception the comprehension can raise is [IndexError]. *)
Lemma comprehension_raises (l : list (entry V)) (s s' : S) (e : exn) :
  comprehension (fun stackEntry => getitem stackEntry 2) l s = (Raise e, s') →
  e = IndexError.
Proof.
  revert s s'. induction l as [|x l IH]; simpl; intros s s'; [discriminate|].
  unfold bind at 1. rewrite getitem_ok. destruct (x !! 2).
  - unfold bind.
    destruct (comprehension _ l s) as [[ys|e'] s0] eqn:E; [discriminate|].
    intros [= -> ->]. eapply IH. exact E.
  - intros [= <-]. reflexivity.
Qed.
End ExtractorFacts.

Section ExtractorGeneric.
Context {V S : Type} `{!Peekable V S}.

(** What a call of [get_features] comes to once both peeks have
    returned: the state is the one the second peek left. *)
Lemma get_features_unfold (kw : kwargs_t V) (s s1 s2 : S) (sp bp : list (entry V)) :
  stack_peek_n 2 s = (Ok sp, s1) →
  input_buffer_peek_n 1 s1 = (Ok bp, s2) →
  Forall wide sp →
  ∃ feats, Forall2 (fun e x => e !! 2 = Some x) sp feats ∧
    get_features kw s =
      (match bp !! 0 with
       | Some first => match first !! 2 with
                       | Some rep => Ok (feats ++ [rep])
                       | None => Raise IndexError
                       end
       | None => Raise IndexError
       end, s2).
Proof.
  intros Hsp Hbp Hwide.
  destruct (comprehension_getitem sp s1) as (r & Hr & Hok & Hval).
  apply Hok in Hwide. destruct r as [feats|]; [|discriminate].
  exists feats. split; [apply Hval; reflexivity|].
  unfold get_features, bind. rewrite Hsp, Hr, Hbp, getitem_ok.
  destruct (bp !! 0) as [first|]; [|reflexivity].
  rewrite getitem_ok. destruct (first !! 2); reflexivity.
Qed.

Lemma get_features_narrow (kw : kwargs_t V) (s s1 : S) (sp : list (entry V)) :
  stack_peek_n 2 s = (Ok sp, s1) →
  ¬ Forall wide sp →
  get_features kw s = (Raise IndexError, s1).
Proof.
  intros Hsp Hn.
  destruct (comprehension_getitem sp s1) as (r & Hr & Hok & _).
  unfold get_features, bind. rewrite Hsp, Hr.
  destruct r as [feats|e]; [exfalso; apply Hn, Hok; reflexivity|].
  apply comprehension_raises in Hr as ->. reflexivity.
Qed.
End ExtractorGeneric.

Section ExtractorClaims.
Context {V S : Type} `{!Peekable V S}.

(** C9: whatever the two keyword-argument dictionaries are,
    [get_features] behaves the same on a parser state: same returned
    feature list (or exception) and same resulting state; the extra
    context is ignored. *)
Theorem get_features_ignores_kwargs (kwargs1 kwargs2 : kwargs_t V) (parser_state : S) :
  get_features kwargs1 parser_state = get_features kwargs2 parser_state.
Proof. reflexivity. Qed.

(** C10: [get_features] reads position 2 of every entry of
    [stack_peek_n(2)] and of entry 0 of [input_buffer_peek_n(1)].  With
    [sp] and [bp] the two peek results, it returns normally exactly when
    every entry of [sp] and entry 0 of [bp] exist with at least three
    components; for a buffer peek of at most one entry this reads: every
    peeked entry has three components and [bp] is not empty.  Under the
    peek contract (exactly n entries, each with a representation at
    position 2) it always returns normally. *)
Theorem get_features_defined (kwargs : kwargs_t V) (s s1 s2 : S)
    (sp bp : list (entry V)) :
  stack_peek_n 2 s = (Ok sp, s1) →
  input_buffer_peek_n 1 s1 = (Ok bp, s2) →
  (is_ok (fst (get_features kwargs s)) = true ↔
     Forall wide sp ∧ ∃ first, bp !! 0 = Some first ∧ wide first)
  ∧ (length bp <= 1 →
     (is_ok (fst (get_features kwargs s)) = true ↔
        Forall wide sp ∧ Forall wide bp ∧ bp ≠ []))
  ∧ (length sp = 2 ∧ length bp = 1 ∧ Forall has_rep sp ∧ Forall has_rep bp →
     is_ok (fst (get_features kwargs s)) = true).
Proof.
  intros Hsp Hbp.
  assert (Hmain : is_ok (fst (get_features kwargs s)) = true ↔
            Forall wide sp ∧ ∃ first, bp !! 0 = Some first ∧ wide first).
  { assert (Hd : Forall wide sp ∨ ¬ Forall wide sp).
    { unfold wide. destruct (decide (Forall (fun e : entry V => 3 <= length e) sp)); auto. }
    destruct Hd as [Hw|Hn].
    - destruct (get_features_unfold kwargs _ _ _ _ _ Hsp Hbp Hw) as (feats & _ & ->).
      simpl. destruct (bp !! 0) as [first|] eqn:E0.
      + destruct (first !! 2) as [rep|] eqn:E2; simpl.
        * split; [intros _|reflexivity]. split; [exact Hw|].
          exists first. split; [reflexivity|]. apply lookup_lt_Some in E2.
          unfold wide. lia.
        * split; [discriminate|]. intros (_ & first' & [= <-] & Hf).
          apply lookup_ge_None in E2. unfold wide in Hf. lia.
      + simpl. split; [discriminate|]. intros (_ & first' & [=] & _).
    - rewrite (get_features_narrow kwargs _ _ _ Hsp Hn). simpl.
      split; [discriminate|]. intros [Hw _]. contradiction. }
  split; [exact Hmain|]. split.
  - intros Hlen. rewrite Hmain. destruct bp as [|first [|]]; simpl in *; try lia.
    + split; [intros (_ & ? & [=] & _)|intros (_ & _ & Hne); contradiction].
    + split.
      * intros (Hw & first' & [= <-] & Hf). repeat split; [exact Hw| |discriminate].
        constructor; [exact Hf|constructor].
      * intros (Hw & Hb & _). split; [exact Hw|]. exists first.
        split; [reflexivity|]. apply Forall_cons in Hb as [Hb _]. exact Hb.
  - intros (_ & Hlen & Hs & Hb). apply Hmain.
    assert (Hhw : ∀ e : entry V, has_rep e → wide e).
    { intros e [v Hv]. apply lookup_lt_Some in Hv. unfold wide. lia. }
    split; [eapply Forall_impl; [exact Hs|exact Hhw]|].
    destruct bp as [|first [|]]; simpl in Hlen; try lia.
    exists first. split; [reflexivity|]. apply Forall_cons in Hb as [Hb _].
    apply Hhw, Hb.
Qed.
End ExtractorClaims.

Section ExtractorOnParserState.
Context {V : Type}.
Variable NULL_STACK_TOK : string.
Variable null_embed : V.

Local Abbreviation PS := (@ParserState V).
Local Abbreviation extract :=
  (@get_features V PS (ParserState_Peekable NULL_STACK_TOK null_embed)).

(** The peeks of the parser state return exactly [n] entries. *)
Lemma peek_n_length (n : nat) (l : list (@Token V)) :
  length (peek_n NULL_STACK_TOK null_embed n l) = n.
Proof.
  unfold peek_n. rewrite length_app, length_fmap, length_take, length_replicate. lia.
Qed.

(** Every peeked entry, sentinel included, has a representation at
    position 2. *)
Lemma peek_n_has_rep (n : nat) (l : list (@Token V)) :
  Forall has_rep (peek_n NULL_STACK_TOK null_embed n l).
Proof.
  unfold peek_n. apply Forall_app. split.
  - apply Forall_fmap, Forall_forall. intros t _. exists (repr t). reflexivity.
  - apply Forall_replicate. exists null_embed. reflexivity.
Qed.

Lemma extract_eq (kwargs : kwargs_t V) (ps : PS) :
  extract kwargs ps =
    (Ok [rep_or_null null_embed (stack ps !! 0);
         rep_or_null null_embed (stack ps !! 1);
         rep_or_null null_embed (buffer ps !! 0)], ps).
Proof.
  destruct ps as [st bf ar]. unfold get_features. simpl.
  destruct st as [|a [|b st]], bf as [|f bf]; reflexivity.
Qed.

(** C1: on every parser state [get_features] returns a list of exactly
    three representations: that of the top stack entry, that of the
    second stack entry, then that of the front buffer entry, the
    sentinel's representation standing in for an entry that is missing. *)
Theorem get_features_three (kwargs : kwargs_t V) (ps : PS) :
  ∃ feats,
  fst (get_features (Peekable0 := ParserState_Peekable NULL_STACK_TOK null_embed) kwargs ps)
    = Ok feats
    ∧ length feats = 3
    ∧ feats = [rep_or_null null_embed (stack ps !! 0);
               rep_or_null null_embed (stack ps !! 1);
               rep_or_null null_embed (buffer ps !! 0)].
Proof. rewrite extract_eq. eexists. repeat split. Qed.

(** C8: [get_features] leaves the parser state as it found it: stack,
    buffer and arcs after the call are those before it. *)
Theorem get_features_read_only (kwargs : kwargs_t V) (ps : PS) :
  let after :=
  snd (get_features (Peekable0 := ParserState_Peekable NULL_STACK_TOK null_embed) kwargs ps) in
  after = ps
  ∧ stack after = stack ps ∧ buffer after = buffer ps ∧ arcs after = arcs ps.
Proof. rewrite extract_eq. simpl. repeat split. Qed.
End ExtractorOnParserState.

Section ExtractorWitness.
(** An instance of C10's statement: the peeks of a parser state with an
    empty stack and an empty buffer. *)
Lemma get_features_defined_witness :
  let ps : @ParserState Z := {| stack := []; buffer := []; arcs := ∅ |} in
  let inst := ParserState_Peekable "<NULL>"%string 7%Z in
  let sp := peek_n "<NULL>"%string 7%Z 2 [] in
  let bp := peek_n "<NULL>"%string 7%Z 1 [] in
  (is_ok (fst (@get_features Z _ inst ∅ ps)) = true ↔
     Forall wide sp ∧ ∃ first, bp !! 0 = Some first ∧ wide first)
  ∧ (is_ok (fst (@get_features Z _ inst ∅ ps)) = true ↔
       Forall wide sp ∧ Forall wide bp ∧ bp ≠ [])
  ∧ is_ok (fst (@get_features Z _ inst ∅ ps)) = true.
Proof.
  intros ps inst sp bp.
  destruct (@get_features_defined Z _ inst ∅ ps ps ps sp bp eq_refl eq_refl)
    as (H1 & H2 & H3).
  split; [exact H1|]. split.
  - apply H2. simpl. lia.
  - apply H3. repeat split; try reflexivity;
      repeat constructor; eexists; reflexivity.
Defined.
End ExtractorWitness.

(** ** Properties of the parser state machine *)

Section Transitions.
Context {V : Type}.
Variable combine : V → V → V.

Local Abbreviation PS := (@ParserState V).

(** C3: the legal actions are exactly SHIFT when the stack has fewer than
    two entries and the buffer is not empty; exactly REDUCE_L and
    REDUCE_R when the buffer is empty and the stack has at least two
    entries; and none when the buffer is empty and the stack has one
    entry, which is the DONE state. *)
Theorem legal_actions_cases (s : PS) :
  (length (stack s) < 2 → buffer s ≠ [] → legal_actions s = [SHIFT])
  ∧ (buffer s = [] → 2 <= length (stack s) → legal_actions s = [REDUCE_L; REDUCE_R])
  ∧ (buffer s = [] → length (stack s) = 1 → legal_actions s = [] ∧ is_done s = true).
Proof.
  unfold legal_actions, is_done, precondition. simpl.
  repeat split; intros; repeat case_bool_decide; simpl; try reflexivity;
    try lia; try contradiction; congruence.
Qed.

(** An action is listed as legal exactly when its precondition holds. *)
Lemma legal_actions_spec (a : Action) (s : PS) :
  a ∈ legal_actions s ↔ precondition a s = true.
Proof.
  unfold legal_actions. rewrite list_elem_of_In, filter_In. split.
  - intros [_ H]. exact H.
  - intros H. split; [|exact H]. destruct a; simpl; auto.
Qed.

(** C4: an action whose precondition does not hold (SHIFT on an empty
    buffer, REDUCE_L or REDUCE_R on a stack of fewer than two entries)
    raises IllegalActionError and leaves stack, buffer and arcs as they
    were. *)
Theorem illegal_action_atomic (a : Action) (s : PS) :
  (a = SHIFT ∧ buffer s = []) ∨ (a ≠ SHIFT ∧ length (stack s) < 2) →
  ∃ s', apply_action combine a s = (Raise IllegalActionError, s')
        ∧ s' = s
        ∧ stack s' = stack s ∧ buffer s' = buffer s ∧ arcs s' = arcs s.
Proof.
  intros H. exists s. split; [|repeat split].
  destruct H as [[-> Hb]|[Ha Hs]].
  - unfold apply_action, shift. rewrite Hb. reflexivity.
  - destruct a; [contradiction| |]; unfold apply_action, reduce_left, reduce_right;
      destruct (stack s) as [|x [|y rest]]; simpl in Hs; try reflexivity; lia.
Qed.

(** A legal action is carried out, and brings the state one transition
    closer to completion. *)
Lemma apply_legal (a : Action) (s : PS) :
  precondition a s = true →
  ∃ s', apply_action combine a s = (Ok tt, s') ∧ S (distance s') = distance s
        ∧ 1 <= length (stack s').
Proof.
  unfold precondition, distance. destruct a; simpl; intros H.
  - unfold shift. destruct (buffer s) as [|t b] eqn:E.
    + rewrite bool_decide_eq_true_2 in H by reflexivity. discriminate.
    + eexists; split; [reflexivity|]. simpl. lia.
  - unfold reduce_left. apply bool_decide_eq_true_1 in H.
    destruct (stack s) as [|x [|y rest]]; simpl in H; try lia.
    eexists; split; [reflexivity|]. simpl. lia.
  - unfold reduce_right. apply bool_decide_eq_true_1 in H.
    destruct (stack s) as [|x [|y rest]]; simpl in H; try lia.
    eexists; split; [reflexivity|]. simpl. lia.
Qed.

(** A transition that is carried out keeps the bookkeeping of the parse
    consistent. *)
Lemma apply_consistent (N : nat) (a : Action) (s s' : PS) :
  consistent N s →
  apply_action combine a s = (Ok tt, s') →
  consistent N s'.
Proof.
  intros [Hnd Hdead Hcount] Happ. destruct s as [st bf ar]. unfold live in *. simpl in *.
  destruct a; simpl in Happ.
  - unfold shift in Happ. simpl in Happ. destruct bf as [|t b]; [discriminate|].
    injection Happ as <-. split; unfold live; simpl in *.
    + rewrite Permutation_middle. exact Hnd.
    + intros h m Hin Hm. apply (Hdead h m Hin). set_solver.
    + lia.
  - unfold reduce_left in Happ. simpl in Happ.
    destruct st as [|x [|y rest]]; try discriminate.
    injection Happ as <-. simpl in *.
    apply NoDup_cons in Hnd as [Hx Hnd]. apply NoDup_cons in Hnd as [Hy Hnd].
    split; unfold live; simpl.
    + apply NoDup_cons. split; [set_solver|exact Hnd].
    + intros h m Hin Hm. apply elem_of_union in Hin as [Hin|Hin].
      * apply elem_of_singleton in Hin. injection Hin as -> ->. set_solver.
      * apply (Hdead h m Hin). set_solver.
    + rewrite size_union, size_singleton; [lia|].
      apply disjoint_singleton_l. intros Hin. apply (Hdead _ _ Hin). set_solver.
  - unfold reduce_right in Happ. simpl in Happ.
    destruct st as [|x [|y rest]]; try discriminate.
    injection Happ as <-. simpl in *.
    apply NoDup_cons in Hnd as [Hx Hnd]. apply NoDup_cons in Hnd as [Hy Hnd].
    split; unfold live; simpl.
    + apply NoDup_cons. split; [exact Hy|exact Hnd].
    + intros h m Hin Hm. apply elem_of_union in Hin as [Hin|Hin].
      * apply elem_of_singleton in Hin. injection Hin as -> ->. set_solver.
      * apply (Hdead h m Hin). set_solver.
    + rewrite size_union, size_singleton; [lia|].
      apply disjoint_singleton_l. intros Hin. apply (Hdead _ _ Hin). set_solver.
Qed.
End Transitions.

Section Decoding.
Context {V : Type}.
Variable NULL_STACK_TOK : string.
Variable null_embed : V.
Variable combine : V → V → V.
Variable Score : Type.
Variable score_lt : Score → Score → bool.
Variable score_actions : list (value V) → Action → Score.

Local Abbreviation PS := (@ParserState V).
Local Abbreviation run :=
  (decode NULL_STACK_TOK null_embed combine Score score_lt score_actions).

(** A sentence starts with its positions 0 .. N-1 live and no arc. *)
Lemma initial_consistent (sentence : list (string * V)) :
  consistent (length sentence) (initial_state sentence).
Proof.
  unfold initial_state. split; unfold live; cbn [stack buffer arcs].
  - simpl. rewrite fmap_imap. unfold compose. simpl.
    rewrite (imap_seq_0 sentence (fun i => i)), list_fmap_id. apply NoDup_seq.
  - intros h m Hin. set_solver.
  - rewrite length_imap, size_empty. simpl. lia.
Qed.

(** A completed state of a parse of [N] tokens has recorded [N - 1]
    arcs. *)
Lemma done_consistent (N : nat) (s : PS) :
  consistent N s → is_done s = true →
  buffer s = [] ∧ length (stack s) = 1 ∧ size (arcs s) = N - 1.
Proof.
  intros [_ _ Hc] Hd. unfold is_done in Hd.
  apply andb_true_iff in Hd as [Hb Hs].
  apply bool_decide_eq_true_1 in Hb. apply bool_decide_eq_true_1 in Hs.
  rewrite Hb in Hc. simpl in Hc. repeat split; [exact Hb|exact Hs|lia].
Qed.

(** The greedy choice is one of the legal actions when there is one. *)
Lemma select_greedy_legal (sc : Action → Score) (legal : list Action) :
  legal ≠ [] → select_greedy Score score_lt sc legal ∈ legal.
Proof.
  destruct legal as [|a rest]; [contradiction|]. intros _. simpl.
  assert (H : ∀ l b, fold_left (better Score score_lt sc) l b ∈ b :: l).
  { induction l as [|x l IH]; intros b; simpl; [left|].
    specialize (IH (better Score score_lt sc b x)). unfold better in *.
    destruct (score_lt (sc b) (sc x)); set_solver. }
  apply H.
Qed.

(** Whatever the policy, the action chosen is legal. *)
Lemma choose_legal (gold gold' : option (list Action)) (s : PS)
    (sc : Action → Score) (a : Action) :
  legal_actions s ≠ [] →
  choose Score score_lt gold (legal_actions s) sc = Ok (a, gold') →
  precondition a s = true.
Proof.
  intros Hne Hc. apply legal_actions_spec. destruct gold as [[|g gs]|]; simpl in Hc.
  - discriminate.
  - case_bool_decide; [|discriminate]. injection Hc as <- <-. assumption.
  - injection Hc as <- <-. apply select_greedy_legal, Hne.
Qed.

(** Every state the loop ends in satisfies what the initial state
    satisfied, and is DONE. *)
Lemma decode_finished (N fuel : nat) (gold : option (list Action))
    (trace actions : list Action) (s final : PS) :
  consistent N s →
  run fuel gold trace s = Finished final actions →
  consistent N final ∧ is_done final = true.
Proof.
  revert gold trace s. induction fuel as [|fuel IH]; intros gold trace s Hc; simpl.
  - destruct (is_done s) eqn:Hd; [|discriminate]. intros [= <- _]. auto.
  - destruct (is_done s) eqn:Hd; [intros [= <- _]; auto|].
    rewrite extract_eq.
    destruct (choose _ _ _ _ _) as [[a gold']|e]; [|discriminate].
    destruct (apply_action combine a s) as [[[]|e] s2] eqn:Ha; [|discriminate].
    apply IH. eapply apply_consistent; eauto.
Qed.

(** A state that is not DONE and still holds a token has a legal
    action. *)
Lemma legal_actions_nonempty (s : PS) :
  is_done s = false → 1 <= length (stack s) + length (buffer s) →
  legal_actions s ≠ [].
Proof.
  intros Hd Hn Hnil.
  assert (Hex : ∃ a, precondition a s = true).
  { unfold is_done in Hd. destruct (buffer s) as [|t b] eqn:Eb.
    - exists REDUCE_L. simpl. apply bool_decide_eq_true_2.
      rewrite bool_decide_eq_true_2 in Hd by reflexivity. simpl in Hd.
      apply bool_decide_eq_false_1 in Hd. simpl in Hn. lia.
    - exists SHIFT. simpl. rewrite Eb. reflexivity. }
  destruct Hex as [a Ha]. apply legal_actions_spec in Ha.
  rewrite Hnil in Ha. set_solver.
Qed.

(** Greedy decoding reaches DONE from every state that holds a token,
    within the number of transitions the state is away from it. *)
Lemma decode_terminates (fuel : nat) (trace : list Action) (s : PS) :
  1 <= length (stack s) + length (buffer s) →
  distance s <= S fuel →
  ∃ final actions, run fuel None trace s = Finished final actions.
Proof.
  revert trace s. induction fuel as [|fuel IH]; intros trace s Hn Hd.
  - simpl. destruct (is_done s) eqn:E; [eauto|]. exfalso.
    unfold is_done, distance in *. apply andb_false_iff in E.
    destruct E as [E|E]; apply bool_decide_eq_false_1 in E;
      destruct (buffer s); simpl in *; try contradiction; lia.
  - simpl. destruct (is_done s) eqn:E; [eauto|].
    rewrite extract_eq.
    pose proof (legal_actions_nonempty s E Hn) as Hne. cbn [choose].
    set (a := select_greedy _ _ _ _).
    assert (Hc : precondition a s = true)
      by apply legal_actions_spec, select_greedy_legal, Hne.
    destruct (apply_legal combine a s Hc) as (s' & -> & Hdist & Hst).
    apply IH; lia.
Qed.

(** C2: for a sentence of length N, a state in which the decoding loop
    terminates (DONE) has an empty buffer, exactly one stack entry and
    exactly N - 1 arcs, under either policy and with any bound on the
    iterations; and on a sentence that is not empty greedy decoding does
    terminate in such a state. *)
Theorem completed_parse (gold : option (list Action)) (sentence : list (string * V)) :
  (∀ fuel final actions,
     run fuel gold [] (initial_state sentence) = Finished final actions →
     buffer final = [] ∧ length (stack final) = 1
     ∧ size (arcs final) = length sentence - 1)
  ∧ (sentence ≠ [] →
     ∃ final actions,
       parse NULL_STACK_TOK null_embed combine Score score_lt score_actions
         None sentence = Finished final actions).
Proof.
  split.
  - intros fuel final actions Hrun.
    destruct (decode_finished _ _ _ _ _ _ _ (initial_consistent sentence) Hrun) as [Hc Hd].
    apply (done_consistent _ _ Hc Hd).
  - intros Hne. unfold parse. apply decode_terminates.
    + unfold initial_state. simpl. rewrite length_imap.
      destruct sentence; [contradiction|simpl; lia].
    + unfold distance, initial_state. simpl. rewrite length_imap. lia.
Qed.
End Decoding.

Section ParserWitnesses.
Local Open Scope string_scope.

Local Abbreviation the_dog := [("The", 10%Z); ("dog", 20%Z)].
Local Abbreviation prefer_reduce_left :=
  (fun (_ : list (value Z)) (a : Action) =>
     match a with SHIFT => 0%Z | REDUCE_L => 2%Z | REDUCE_R => 1%Z end).

(** Greedy decoding of a two-token sentence: two shifts, then the
    reduction the scorer prefers. *)
Example parse_the_dog :
  ∃ final,
    parse "<NULL>" 0%Z Z.add Z Z.ltb prefer_reduce_left None the_dog
      = Finished final [SHIFT; SHIFT; REDUCE_L]
    ∧ stack final = [mkToken "dog" 1 30%Z]
    ∧ buffer final = []
    ∧ elements (arcs final) = [(1, 0)].
Proof. eexists. split; [reflexivity|]. repeat split. Qed.

(** An instance of C2's statement on that sentence. *)
Lemma completed_parse_witness :
  ∃ final actions,
    parse "<NULL>" 0%Z Z.add Z Z.ltb prefer_reduce_left None the_dog
      = Finished final actions
    ∧ buffer final = [] ∧ length (stack final) = 1 ∧ size (arcs final) = 2 - 1.
Proof.
  destruct (completed_parse "<NULL>" 0%Z Z.add Z Z.ltb prefer_reduce_left None the_dog)
    as [Hshape Hterm].
  destruct (Hterm ltac:(discriminate)) as (final & actions & Hparse).
  exists final, actions. split; [exact Hparse|].
  exact (Hshape _ _ _ Hparse).
Defined.

(** An instance of C3's statement: one state for each of its cases. *)
Lemma legal_actions_cases_witness :
  legal_actions (mkState [mkToken "The" 0 10%Z] [mkToken "dog" 1 20%Z] ∅) = [SHIFT]
  ∧ legal_actions (mkState [mkToken "dog" 1 20%Z; mkToken "The" 0 10%Z] [] ∅)
    = [REDUCE_L; REDUCE_R]
  ∧ legal_actions (mkState [mkToken "dog" 1 30%Z] [] {[ (1, 0) ]}) = [].
Proof.
  split; [|split].
  - apply legal_actions_cases; simpl; [lia|discriminate].
  - apply legal_actions_cases; simpl; [reflexivity|lia].
  - apply legal_actions_cases; simpl; reflexivity.
Defined.

(** An instance of C4's statement: REDUCE_L on a stack of one entry. *)
Lemma illegal_action_atomic_witness :
  let s := mkState [mkToken "The" 0 10%Z] [mkToken "dog" 1 20%Z] ∅ in
  ∃ s', apply_action Z.add REDUCE_L s = (Raise IllegalActionError, s')
        ∧ s' = s
        ∧ stack s' = stack s ∧ buffer s' = buffer s ∧ arcs s' = arcs s.
Proof.
  intros s. apply illegal_action_atomic. right. split; [discriminate|simpl; lia].
Defined.
End ParserWitnesses.

(** ** Properties of the networks *)

Import Torch NeuralNet.

Section TensorFacts.
Context {R : Type} `{!Scalar R}.

Lemma length_flat_map_const {A B} (f : A → list B) (l : list A) (k : nat) :
  (∀ x, length (f x) = k) → length (flat_map f l) = length l * k.
Proof.
  intros Hf. induction l as [|x l IH]; simpl; [reflexivity|].
  rewrite length_app, Hf, IH. reflexivity.
Qed.

Lemma length_affine (l : Linear R) (x : list R) :
  length (affine l x) = out_features l.
Proof. unfold affine. rewrite length_fmap, length_seq. reflexivity. Qed.

(** A linear layer maps [rows] vectors of [in_features] entries to
    [rows] vectors of [out_features] entries. *)
Lemma linear_forward_matrix (l : Linear R) (x : Tensor R) (rows : nat) :
  shape x = [rows; in_features l] →
  ∃ y, linear_forward l x = Ok y
       ∧ shape y = [rows; out_features l]
       ∧ length (data y) = rows * out_features l.
Proof.
  intros Hx. unfold linear_forward. rewrite Hx. simpl.
  rewrite Nat.eqb_refl. eexists. split; [reflexivity|]. simpl. split; [reflexivity|].
  rewrite (length_flat_map_const _ _ (out_features l)) by (intros; apply length_affine).
  rewrite length_seq. lia.
Qed.

Lemma concat_and_flatten_shape (items : list (Tensor R)) :
  shape (concat_and_flatten items) = [1; sum_list (numel <$> items)].
Proof. reflexivity. Qed.

Lemma numel_row_vector (t : Tensor R) (d : nat) : shape t = [1; d] → numel t = d.
Proof. unfold numel. intros ->. simpl. lia. Qed.

Lemma length_log_softmax_row (x : list R) : length (log_softmax_row x) = length x.
Proof. unfold log_softmax_row. apply length_fmap. Qed.

(** On a well-formed row vector the log softmax is that of its one row. *)
Lemma log_softmax_row_vector (x : Tensor R) (d : nat) :
  shape x = [1; d] → length (data x) = d →
  log_softmax x = {| shape := [1; d]; data := log_softmax_row (data x) |}.
Proof.
  intros Hs Hl. unfold log_softmax. rewrite Hs. simpl. f_equal.
  unfold row. simpl. rewrite app_nil_r, <- Hl, firstn_all. reflexivity.
Qed.
End TensorFacts.

Section Chooser.
Context {R : Type} `{!Scalar R}.

(** C7: on a list of feature vectors whose concatenated width is the
    configured [input_dim], [ActionChooserNetwork.forward] returns a row
    vector of shape (1, 3), one score per action, obtained from the
    concatenated features by the first affine layer, relu, the second
    affine layer and the log softmax. *)
Theorem action_chooser_forward (input_dim : nat)
    (w1 : nat → nat → R) (b1 : nat → R) (w2 : nat → nat → R) (b2 : nat → R)
    (inputs : list (Tensor R)) :
  sum_list (numel <$> inputs) = input_dim →
  let net := ActionChooserNetwork.__init__ input_dim w1 b1 w2 b2 in
  ∃ hidden_layer scores,
    linear_forward (ActionChooserNetwork.first_layer net) (concat_and_flatten inputs)
      = Ok hidden_layer
    ∧ linear_forward (ActionChooserNetwork.second_layer net) (pointwise rrelu hidden_layer)
      = Ok scores
    ∧ ActionChooserNetwork.forward net inputs = Ok (log_softmax scores)
    ∧ shape (log_softmax scores) = [1; 3]
    ∧ length (data (log_softmax scores)) = 3.
Proof.
  intros Hw net.
  destruct (linear_forward_matrix (ActionChooserNetwork.first_layer net)
              (concat_and_flatten inputs) 1) as (a & Ha & Hsa & Hla).
  { rewrite concat_and_flatten_shape, Hw. reflexivity. }
  destruct (linear_forward_matrix (ActionChooserNetwork.second_layer net)
              (pointwise rrelu a) 1) as (b & Hb & Hsb & Hlb).
  { simpl. exact Hsa. }
  simpl in Hsb, Hlb.
  exists a, b. split; [exact Ha|]. split; [exact Hb|]. split.
  - unfold ActionChooserNetwork.forward. rewrite Ha. cbn [cbind]. rewrite Hb. reflexivity.
  - rewrite (log_softmax_row_vector b 3 Hsb Hlb). simpl.
    rewrite length_log_softmax_row. split; [reflexivity|exact Hlb].
Qed.
End Chooser.

Section Combiners.
Context {R : Type} `{!Scalar R}.

Lemma concat_pair_shape (head_embed modifier_embed : Tensor R) (D : nat) :
  shape head_embed = [1; D] → shape modifier_embed = [1; D] →
  shape (concat_and_flatten [head_embed; modifier_embed]) = [1; 2 * D].
Proof.
  intros Hh Hm. rewrite concat_and_flatten_shape. simpl.
  rewrite (numel_row_vector _ _ Hh), (numel_row_vector _ _ Hm).
  repeat f_equal; lia.
Qed.

(** The MLP combiner returns a row vector of the width of its inputs. *)
Lemma mlp_combiner_forward (D : nat)
    (w1 : nat → nat → R) (b1 : nat → R) (w2 : nat → nat → R) (b2 : nat → R)
    (head_embed modifier_embed : Tensor R) :
  shape head_embed = [1; D] → shape modifier_embed = [1; D] →
  ∃ out, MLPCombinerNetwork.forward (MLPCombinerNetwork.__init__ D w1 b1 w2 b2)
           head_embed modifier_embed = Ok out
         ∧ shape out = [1; D] ∧ length (data out) = D.
Proof.
  intros Hh Hm. set (net := MLPCombinerNetwork.__init__ D w1 b1 w2 b2).
  destruct (linear_forward_matrix (MLPCombinerNetwork.first_layer net)
              (concat_and_flatten [head_embed; modifier_embed]) 1) as (a & Ha & Hsa & _).
  { apply concat_pair_shape; assumption. }
  destruct (linear_forward_matrix (MLPCombinerNetwork.second_layer net)
              (pointwise rtanh a) 1) as (b & Hb & Hsb & Hlb).
  { simpl. exact Hsa. }
  exists b. unfold MLPCombinerNetwork.forward. rewrite Ha. cbn [cbind].
  split; [exact Hb|]. simpl in Hsb, Hlb. split; [exact Hsb|lia].
Qed.

Lemma length_lstm_cell (m : LSTM R) (l d : nat) (x : list R) (hc : list R * list R) :
  length (fst (lstm_cell m l d x hc)) = hidden_size m.
Proof. destruct hc as [h c]. simpl. rewrite length_fmap, length_seq. reflexivity. Qed.

(** The states an LSTM hands back have the shape it expects of the
    states it is given. *)
Lemma lstm_forward_state_shape (m : LSTM R) (input : Tensor R)
    (hidden : Tensor R * Tensor R) (out : Tensor R * (Tensor R * Tensor R)) :
  lstm_forward m input hidden = Ok out →
  shape (fst (snd out)) = [lstm_layers m * num_directions m; 1; hidden_size m]
  ∧ shape (snd (snd out)) = [lstm_layers m * num_directions m; 1; hidden_size m].
Proof.
  unfold lstm_forward. destruct hidden as [h0 c0].
  destruct (shape input) as [|seq_len [|[|[|one]] [|width [|]]]]; try discriminate.
  case_bool_decide; [|discriminate].
  destruct (lstm_stack _ _ _ _ _ _) as [outs finals].
  intros [= <-]. simpl. auto.
Qed.

(** One step of a one-layer, one-direction LSTM on a single input. *)
Lemma lstm_forward_single (m : LSTM R) (input h0 c0 : Tensor R) :
  lstm_layers m = 1 → bidirectional m = false →
  shape input = [1; 1; input_size m] →
  shape h0 = [1; 1; hidden_size m] → shape c0 = [1; 1; hidden_size m] →
  ∃ out hn cn, lstm_forward m input (h0, c0) = Ok (out, (hn, cn))
               ∧ shape hn = [1; 1; hidden_size m]
               ∧ length (data hn) = hidden_size m.
Proof.
  intros Hl Hb Hi Hh Hc. unfold lstm_forward, num_directions.
  rewrite Hi, Hl, Hb, Hh, Hc. simpl.
  rewrite bool_decide_eq_true_2 by auto.
  unfold lstm_layer, num_directions. rewrite Hb. simpl.
  do 3 eexists. split; [reflexivity|]. simpl. split; [reflexivity|].
  rewrite app_nil_r, length_fmap, length_seq. reflexivity.
Qed.
End Combiners.

Section LSTMCombiner.
Context {R : Type} `{!Scalar R}.

Lemma combiner_init_shaped (D L : nat) (dropout : R)
    (w_ih w_hh : nat → nat → nat → nat → R) (b_ih b_hh : nat → nat → nat → R) :
  combiner_shaped D L (LSTMCombinerNetwork.__init__ D L dropout w_ih w_hh b_ih b_hh).
Proof. repeat split. Qed.

(** Neither [forward] nor [clear_hidden_state] changes the configuration
    or the shape of the hidden state, whether [forward] returns or
    raises. *)
Lemma combiner_step_shaped (D L : nat) (self : LSTMCombinerNetwork.t R)
    (c : combiner_call) :
  combiner_shaped D L self → combiner_shaped D L (combiner_step self c).
Proof.
  intros Hs. pose proof Hs as (Hd & Hl & Hin & Hhs & Hll & Hbi & Hh0 & Hc0).
  destruct c as [head_embed modifier_embed|]; simpl.
  - unfold LSTMCombinerNetwork.forward, bind, get, put, lift.
    destruct (resize _ _) as [input|]; [|exact Hs].
    destruct (lstm_forward _ _ _) as [out|] eqn:E; [|exact Hs].
    apply lstm_forward_state_shape in E as [E1 E2].
    unfold num_directions in E1, E2. rewrite Hbi, Hll, Hhs, Nat.mul_1_r in E1, E2.
    assert (Hset : combiner_shaped D L (LSTMCombinerNetwork.set_hidden self (snd out)))
      by (repeat split; assumption).
    destruct (resize _ _); exact Hset.
  - unfold LSTMCombinerNetwork.init_hidden. rewrite Hd, Hl.
    destruct (LSTMCombinerNetwork.use_cuda self); repeat split; assumption.
Qed.

Lemma combiner_after_shaped (D L : nat) (calls : list combiner_call)
    (self : LSTMCombinerNetwork.t R) :
  combiner_shaped D L self → combiner_shaped D L (combiner_after calls self).
Proof.
  revert self. induction calls as [|c calls IH]; intros self Hs; [exact Hs|].
  simpl. apply IH, combiner_step_shaped, Hs.
Qed.

(** With one layer the LSTM combiner returns a row vector of the width of
    its inputs. *)
Lemma lstm_combiner_forward (D : nat) (self : LSTMCombinerNetwork.t R)
    (head_embed modifier_embed : Tensor R) :
  combiner_shaped D 1 self →
  shape head_embed = [1; D] → shape modifier_embed = [1; D] →
  ∃ out self', LSTMCombinerNetwork.forward head_embed modifier_embed self = (Ok out, self')
               ∧ shape out = [1; D] ∧ length (data out) = D.
Proof.
  intros (Hd & Hl & Hin & Hhs & Hll & Hbi & Hh0 & Hc0) Hh Hm.
  unfold LSTMCombinerNetwork.forward, bind, get, put, lift. rewrite Hd, Hl.
  pose proof (concat_pair_shape _ _ _ Hh Hm) as Hcat.
  unfold resize at 1. unfold numel. rewrite Hcat.
  replace (numel_of [1; 2 * D] =? numel_of [1; 1; D * 2]) with true
    by (symmetry; apply Nat.eqb_eq; simpl; lia).
  destruct (LSTMCombinerNetwork.hidden self) as [h0 c0] eqn:Ehid. simpl in Hh0, Hc0.
  edestruct (lstm_forward_single (LSTMCombinerNetwork.lstm self)
               {| shape := [1; 1; D * 2];
                  data := data (concat_and_flatten [head_embed; modifier_embed]) |} h0 c0)
    as (out & hn & cn & -> & Hsn & Hln); try assumption.
  { simpl. rewrite Hin. reflexivity. }
  { rewrite Hhs. exact Hh0. }
  { rewrite Hhs. exact Hc0. }
  rewrite Hhs in Hsn, Hln. simpl. unfold resize, numel. rewrite Hsn.
  replace (numel_of [1; 1; D] =? numel_of [1; D]) with true
    by (symmetry; apply Nat.eqb_eq; simpl; lia).
  do 2 eexists. split; [reflexivity|]. simpl. split; [reflexivity|exact Hln].
Qed.

(** With another number of layers and inputs that are not empty, the
    resize of the concatenated inputs is refused. *)
Lemma lstm_combiner_layers (D L : nat) (self : LSTMCombinerNetwork.t R)
    (head_embed modifier_embed : Tensor R) :
  combiner_shaped D L self → L ≠ 1 → D ≠ 0 →
  shape head_embed = [1; D] → shape modifier_embed = [1; D] →
  LSTMCombinerNetwork.forward head_embed modifier_embed self = (Raise RuntimeError, self).
Proof.
  intros (Hd & Hl & _) HL HD Hh Hm.
  unfold LSTMCombinerNetwork.forward, bind, get, put, lift. rewrite Hd, Hl.
  pose proof (concat_pair_shape _ _ _ Hh Hm) as Hcat.
  unfold resize at 1. unfold numel. rewrite Hcat.
  replace (numel_of [1; 2 * D] =? numel_of [L; 1; D * 2]) with false; [reflexivity|].
  symmetry. apply Nat.eqb_neq. simpl. nia.
Qed.

(** Where the combiners do return one vector: for head and modifier
    embeddings of shape (1, D), [MLPCombinerNetwork.forward] of a network
    built with [embedding_dim = D] returns one vector of shape (1, D), and
    so does [LSTMCombinerNetwork.forward] of a network built with
    [embedding_dim = D] and [num_layers = 1], in whatever state earlier
    calls left it. *)
Theorem combiner_forward_dim (D : nat) (head_embed modifier_embed : Tensor R) :
  shape head_embed = [1; D] → shape modifier_embed = [1; D] →
  (∀ w1 b1 w2 b2,
     ∃ out, MLPCombinerNetwork.forward (MLPCombinerNetwork.__init__ D w1 b1 w2 b2)
              head_embed modifier_embed = Ok out
            ∧ shape out = [1; D] ∧ length (data out) = D)
  ∧ (∀ dropout w_ih w_hh b_ih b_hh calls,
       ∃ out self',
         LSTMCombinerNetwork.forward head_embed modifier_embed
           (combiner_after calls
              (LSTMCombinerNetwork.__init__ D 1 dropout w_ih w_hh b_ih b_hh))
           = (Ok out, self')
         ∧ shape out = [1; D] ∧ length (data out) = D).
Proof.
  intros Hh Hm. split.
  - intros. apply mlp_combiner_forward; assumption.
  - intros. apply lstm_combiner_forward; [|assumption|assumption].
    apply combiner_after_shaped, combiner_init_shaped.
Qed.
End LSTMCombiner.

Section Reset.
Context {R : Type} `{!Scalar R}.
Variable sequence_to_variable : list string → gmap string nat → bool → call (list nat).

Local Abbreviation embed_forward := (BiLSTMWordEmbeddingLookup.forward sequence_to_variable).

(** A call on the embedding lookup changes nothing but [hidden]. *)
Lemma embed_step_frame (self : BiLSTMWordEmbeddingLookup.t R) (c : embed_call)
    (h : Tensor R * Tensor R) :
  BiLSTMWordEmbeddingLookup.set_hidden (embed_step sequence_to_variable self c) h
  = BiLSTMWordEmbeddingLookup.set_hidden self h.
Proof.
  destruct c as [sentence|]; simpl; [|reflexivity].
  unfold BiLSTMWordEmbeddingLookup.forward, bind, get, put, lift, ret, raise.
  destruct (BiLSTMWordEmbeddingLookup.word_to_ix self) as [dict|]; [|reflexivity].
  destruct (sequence_to_variable _ _ _) as [inp|]; [|reflexivity].
  destruct (embedding_forward _ _) as [emb|]; [|reflexivity].
  destruct (resize _ _) as [input|]; [|reflexivity].
  destruct (lstm_forward _ _ _) as [out|]; reflexivity.
Qed.

Lemma embed_after_frame (calls : list embed_call) (self : BiLSTMWordEmbeddingLookup.t R)
    (h : Tensor R * Tensor R) :
  BiLSTMWordEmbeddingLookup.set_hidden (embed_after sequence_to_variable calls self) h
  = BiLSTMWordEmbeddingLookup.set_hidden self h.
Proof.
  revert self. induction calls as [|c calls IH]; intros self; [reflexivity|].
  simpl. rewrite IH. apply embed_step_frame.
Qed.

(** The zero state depends on the configuration only. *)
Lemma embed_init_hidden_frame (self self' : BiLSTMWordEmbeddingLookup.t R)
    (h : Tensor R * Tensor R) :
  BiLSTMWordEmbeddingLookup.set_hidden self h = BiLSTMWordEmbeddingLookup.set_hidden self' h →
  BiLSTMWordEmbeddingLookup.init_hidden self = BiLSTMWordEmbeddingLookup.init_hidden self'.
Proof.
  destruct self, self'. unfold BiLSTMWordEmbeddingLookup.set_hidden. simpl.
  intros [= -> -> -> -> -> -> -> ->]. reflexivity.
Qed.

(** A call on the LSTM combiner changes nothing but [hidden]. *)
Lemma combiner_step_frame (self : LSTMCombinerNetwork.t R) (c : combiner_call)
    (h : Tensor R * Tensor R) :
  LSTMCombinerNetwork.set_hidden (combiner_step self c) h
  = LSTMCombinerNetwork.set_hidden self h.
Proof.
  destruct c as [head_embed modifier_embed|]; simpl; [|reflexivity].
  unfold LSTMCombinerNetwork.forward, bind, get, put, lift.
  destruct (resize _ _) as [input|]; [|reflexivity].
  destruct (lstm_forward _ _ _) as [out|]; [|reflexivity].
  destruct (resize _ _); reflexivity.
Qed.

Lemma combiner_after_frame (calls : list combiner_call) (self : LSTMCombinerNetwork.t R)
    (h : Tensor R * Tensor R) :
  LSTMCombinerNetwork.set_hidden (combiner_after calls self) h
  = LSTMCombinerNetwork.set_hidden self h.
Proof.
  revert self. induction calls as [|c calls IH]; intros self; [reflexivity|].
  simpl. rewrite IH. apply combiner_step_frame.
Qed.

Lemma combiner_init_hidden_frame (self self' : LSTMCombinerNetwork.t R)
    (h : Tensor R * Tensor R) :
  LSTMCombinerNetwork.set_hidden self h = LSTMCombinerNetwork.set_hidden self' h →
  LSTMCombinerNetwork.init_hidden self = LSTMCombinerNetwork.init_hidden self'.
Proof.
  destruct self, self'. unfold LSTMCombinerNetwork.set_hidden. simpl.
  intros [= -> -> -> ->]. reflexivity.
Qed.

End Reset.

Section ResetAndMasks.
Context {R : Type} (ops : Scalar R).
Variable sequence_to_variable : list string → gmap string nat → bool → call (list nat).

Lemma embed_after_drawing_frame (calls : list ((R → list R → list R) * embed_call))
    (self : BiLSTMWordEmbeddingLookup.t R) (h : Tensor R * Tensor R) :
  BiLSTMWordEmbeddingLookup.set_hidden
    (embed_after_drawing ops sequence_to_variable calls self) h
  = BiLSTMWordEmbeddingLookup.set_hidden self h.
Proof.
  revert self. induction calls as [|[masks c] calls IH]; intros self; [reflexivity|].
  unfold embed_after_drawing in *. simpl. rewrite IH. apply embed_step_frame.
Qed.

Lemma combiner_after_drawing_frame (calls : list ((R → list R → list R) * combiner_call))
    (self : LSTMCombinerNetwork.t R) (h : Tensor R * Tensor R) :
  LSTMCombinerNetwork.set_hidden (combiner_after_drawing ops calls self) h
  = LSTMCombinerNetwork.set_hidden self h.
Proof.
  revert self. induction calls as [|[masks c] calls IH]; intros self; [reflexivity|].
  unfold combiner_after_drawing in *. simpl. rewrite IH. apply combiner_step_frame.
Qed.

(** The masks only enter between two layers: a stack of at most one layer,
    or two draws that agree on what they do at the LSTM's dropout
    probability, give the same result. *)
Lemma lstm_stack_masks (masks1 masks2 : R → list R → list R) (m : LSTM R)
    (h0 c0 : Tensor R) (n l : nat) (xs : list (list R)) :
  n <= 1 ∨ (∀ ys, masks1 (dropout m) ys = masks2 (dropout m) ys) →
  @lstm_stack R (with_masks ops masks1) m h0 c0 n l xs
  = @lstm_stack R (with_masks ops masks2) m h0 c0 n l xs.
Proof.
  revert l xs. induction n as [|n IH]; intros l xs Hm; [reflexivity|].
  cbn [lstm_stack].
  change (@lstm_layer R (with_masks ops masks1) m h0 c0 l xs)
    with (@lstm_layer R (with_masks ops masks2) m h0 c0 l xs).
  destruct (@lstm_layer R (with_masks ops masks2) m h0 c0 l xs) as [outs finals].
  destruct n as [|n']; [reflexivity|].
  destruct Hm as [Hle|Hm]; [lia|].
  change (@rdropout R (with_masks ops masks1)) with masks1.
  change (@rdropout R (with_masks ops masks2)) with masks2.
  rewrite (list_fmap_ext (masks1 (dropout m)) (masks2 (dropout m)) outs)
    by (intros; apply Hm).
  rewrite (IH (S l) _ (or_intror Hm)). reflexivity.
Qed.

Lemma lstm_forward_masks (masks1 masks2 : R → list R → list R) (m : LSTM R)
    (input : Tensor R) (hidden : Tensor R * Tensor R) :
  lstm_layers m <= 1 ∨ (∀ ys, masks1 (dropout m) ys = masks2 (dropout m) ys) →
  @lstm_forward R (with_masks ops masks1) m input hidden
  = @lstm_forward R (with_masks ops masks2) m input hidden.
Proof.
  intros Hm. unfold lstm_forward. destruct hidden as [h0 c0].
  destruct (shape input) as [|seq_len [|[|[|one]] [|width [|]]]]; try reflexivity.
  rewrite (lstm_stack_masks masks1 masks2 m h0 c0 _ 0 _ Hm). reflexivity.
Qed.

End ResetAndMasks.


Section NetworkWitnesses.
Local Open Scope Z_scope.
Local Existing Instance Z_scalar.

Local Abbreviation ZT := (Tensor Z).
Local Abbreviation w2 := (fun i j : nat => Z.of_nat (i + j)).
Local Abbreviation w1 := (fun i : nat => Z.of_nat i).
Local Abbreviation w4 := (fun l d i j : nat => Z.of_nat (i + j) - 1).
Local Abbreviation w3 := (fun l d i : nat => Z.of_nat i).
Local Abbreviation ones := ({| shape := [1; 2]%nat; data := [1; 1] |} : ZT).

(** C5: the forward operation of a combiner built with
    [embedding_dim = D] should return, for head and modifier embeddings of
    dimensionality D, a single vector of dimensionality D.  The LSTM
    combiner does not: built with [embedding_dim = 1] and [num_layers = 2]
    it raises on two embeddings of shape (1, 1), resizing their
    concatenation to (num_layers, 1, 2) where its documentation says
    (1, 1, embedding_dim * 2). *)
Lemma lstm_combiner_two_layers_raises :
  let net := @LSTMCombinerNetwork.__init__ Z Z_scalar 1%nat 2%nat 0 w4 w4 w3 w3 in
  let head_embed : ZT := {| shape := [1; 1]%nat; data := [5] |} in
  let modifier_embed : ZT := {| shape := [1; 1]%nat; data := [-3] |} in
  shape head_embed = [1; 1]%nat ∧ shape modifier_embed = [1; 1]%nat
  ∧ fst (LSTMCombinerNetwork.forward head_embed modifier_embed net) = Raise RuntimeError
  ∧ ¬ ∃ out, fst (LSTMCombinerNetwork.forward head_embed modifier_embed net) = Ok out
             ∧ shape out = [1; 1]%nat.
Proof.
  intros net head_embed modifier_embed.
  assert (H : fst (LSTMCombinerNetwork.forward head_embed modifier_embed net)
              = Raise RuntimeError) by reflexivity.
  split; [reflexivity|]. split; [reflexivity|]. split; [exact H|].
  intros (out & Hout & _). rewrite H in Hout. discriminate.
Qed.

(** The one-vector case on embeddings of width 2 and a used one-layer LSTM
    combiner. *)
Lemma combiner_forward_dim_witness :
  let head_embed : ZT := {| shape := [1; 2]%nat; data := [5; 1] |} in
  let modifier_embed : ZT := {| shape := [1; 2]%nat; data := [-3; 4] |} in
  (∃ out, MLPCombinerNetwork.forward
            (@MLPCombinerNetwork.__init__ Z 2%nat w2 w1 w2 w1)
            head_embed modifier_embed = Ok out
          ∧ shape out = [1; 2]%nat ∧ length (data out) = 2%nat)
  ∧ (∃ out self',
       LSTMCombinerNetwork.forward head_embed modifier_embed
         (combiner_after [CombineForward modifier_embed head_embed; CombineClear]
            (@LSTMCombinerNetwork.__init__ Z Z_scalar 2%nat 1%nat 0 w4 w4 w3 w3))
         = (Ok out, self')
       ∧ shape out = [1; 2]%nat ∧ length (data out) = 2%nat).
Proof.
  intros head_embed modifier_embed.
  destruct (@combiner_forward_dim Z Z_scalar 2%nat head_embed modifier_embed
              eq_refl eq_refl) as [Hmlp Hlstm].
  split; [apply Hmlp|apply Hlstm].
Defined.

(** The one-layer combiner on concrete embeddings. *)
Example lstm_combiner_one_layer :
  let head_embed : ZT := {| shape := [1; 2]%nat; data := [5; 1] |} in
  let modifier_embed : ZT := {| shape := [1; 2]%nat; data := [-3; 4] |} in
  fst (LSTMCombinerNetwork.forward head_embed modifier_embed
         (@LSTMCombinerNetwork.__init__ Z Z_scalar 2%nat 1%nat 0 w4 w4 w3 w3))
  = Ok {| shape := [1; 2]%nat; data := [0; 1] |}.
Proof. vm_compute. reflexivity. Qed.

(** An instance of C7: three features of width 1, 2 and 1. *)
Lemma action_chooser_forward_witness :
  let inputs : list ZT :=
    [ {| shape := [1; 1]%nat; data := [1] |};
      {| shape := [1; 2]%nat; data := [2; -2] |};
      {| shape := [1; 1]%nat; data := [3] |} ] in
  let net := @ActionChooserNetwork.__init__ Z 4%nat w2 w1 w2 w1 in
  ∃ hidden_layer scores,
    linear_forward (ActionChooserNetwork.first_layer net) (concat_and_flatten inputs)
      = Ok hidden_layer
    ∧ linear_forward (ActionChooserNetwork.second_layer net) (pointwise rrelu hidden_layer)
      = Ok scores
    ∧ ActionChooserNetwork.forward net inputs = Ok (log_softmax scores)
    ∧ shape (log_softmax scores) = [1; 3]%nat
    ∧ length (data (log_softmax scores)) = 3%nat.
Proof.
  intros inputs net.
  apply (@action_chooser_forward Z Z_scalar 4%nat w2 w1 w2 w1 inputs). reflexivity.
Defined.

End NetworkWitnesses.


(** ** Further properties of the feature extractor *)

Section ExtractorFurther.
Context {V S : Type} `{!Peekable V S}.

(** X1: whatever the peeks return, a call of [get_features] that returns
    gives the position-2 components of the entries of [stack_peek_n(2)],
    in their order, followed by the position-2 component of entry 0 of
    [input_buffer_peek_n(1)]; the list is one longer than the stack peek,
    and the state is the one the second peek left. *)
Theorem get_features_result (kwargs : kwargs_t V) (s s1 s2 s' : S)
    (sp bp : list (entry V)) (feats : list (value V)) :
  stack_peek_n 2 s = (Ok sp, s1) →
  input_buffer_peek_n 1 s1 = (Ok bp, s2) →
  get_features kwargs s = (Ok feats, s') →
  s' = s2
  ∧ length feats = length sp + 1
  ∧ ∃ reps first rep,
      feats = reps ++ [rep]
      ∧ Forall2 (fun e x => e !! 2 = Some x) sp reps
      ∧ bp !! 0 = Some first ∧ first !! 2 = Some rep.
Proof.
  intros Hsp Hbp Hget.
  assert (Hd : Forall wide sp ∨ ¬ Forall wide sp).
  { unfold wide. destruct (decide (Forall (fun e : entry V => 3 <= length e) sp)); auto. }
  destruct Hd as [Hw|Hn].
  - destruct (get_features_unfold kwargs _ _ _ _ _ Hsp Hbp Hw) as (reps & Hreps & Heq).
    rewrite Heq in Hget. destruct (bp !! 0) as [first|]; [|discriminate].
    destruct (first !! 2) as [rep|] eqn:E2; [|discriminate].
    injection Hget as <- <-. split; [reflexivity|]. split.
    + rewrite length_app. simpl. apply Forall2_length in Hreps. lia.
    + exists reps, first, rep. auto.
  - rewrite (get_features_narrow kwargs _ _ _ Hsp Hn) in Hget. discriminate.
Qed.

(** X2: [get_features] raises IndexError when an entry of the stack peek
    has fewer than three components, and then the buffer is not peeked at:
    the state is the one the stack peek left.  It also raises IndexError,
    after both peeks, when the buffer peek is empty or its entry 0 has
    fewer than three components. *)
Theorem get_features_index_error (kwargs : kwargs_t V) (s s1 : S)
    (sp : list (entry V)) :
  stack_peek_n 2 s = (Ok sp, s1) →
  ((∃ e, e ∈ sp ∧ length e < 3) → get_features kwargs s = (Raise IndexError, s1))
  ∧ (∀ bp s2,
       Forall wide sp →
       input_buffer_peek_n 1 s1 = (Ok bp, s2) →
       (bp = [] ∨ ∃ first, bp !! 0 = Some first ∧ length first < 3) →
       get_features kwargs s = (Raise IndexError, s2)).
Proof.
  intros Hsp. split.
  - intros (e & Hin & He). apply (get_features_narrow kwargs _ _ _ Hsp).
    intros Hall. rewrite Forall_forall in Hall. specialize (Hall e Hin).
    unfold wide in Hall. lia.
  - intros bp s2 Hw Hbp Hbad.
    destruct (get_features_unfold kwargs _ _ _ _ _ Hsp Hbp Hw) as (reps & _ & ->).
    destruct Hbad as [->|(first & -> & Hf)]; [reflexivity|].
    rewrite (proj2 (lookup_ge_None first 2)) by lia. reflexivity.
Qed.
End ExtractorFurther.

Section ExtractorFurtherWitnesses.
Local Existing Instance probe_Peekable.

Local Abbreviation full := [VStr "w"; VInt 0; VRep 5%Z].
Local Abbreviation short := [VStr "w"; VInt 0].

(** An instance of X1: a stack peek of two entries and a buffer peek of
    one. *)
Lemma get_features_result_witness :
  let p := mkProbe (Ok [full; [VNone; VNone; VRep 6%Z; VNone]]) (Ok [full]) 0 in
  let feats := [VRep 5%Z; VRep 6%Z; VRep 5%Z] in
  probe_bump (probe_bump p) = probe_bump (probe_bump p)
  ∧ length feats = 3
  ∧ ∃ reps first rep,
      feats = reps ++ [rep]
      ∧ Forall2 (fun e x => e !! 2 = Some x) [full; [VNone; VNone; VRep 6%Z; VNone]] reps
      ∧ [full] !! 0 = Some first ∧ first !! 2 = Some rep.
Proof.
  intros p feats.
  exact (get_features_result ∅ p (probe_bump p) (probe_bump (probe_bump p))
           (probe_bump (probe_bump p)) _ _ feats eq_refl eq_refl eq_refl).
Defined.

(** An instance of X2: a short stack entry stops the call after one peek;
    an empty buffer peek stops it after two. *)
Lemma get_features_index_error_witness :
  let p := mkProbe (Ok [full; short]) (Ok [full]) 0 in
  let q := mkProbe (Ok [full; full]) (Ok []) 0 in
  get_features ∅ p = (Raise IndexError, probe_bump p)
  ∧ get_features ∅ q = (Raise IndexError, probe_bump (probe_bump q)).
Proof.
  intros p q.
  assert (Hp : stack_peek_n 2 p = (Ok [full; short], probe_bump p)) by reflexivity.
  assert (Hq : stack_peek_n 2 q = (Ok [full; full], probe_bump q)) by reflexivity.
  split.
  - apply (proj1 (get_features_index_error ∅ p _ _ Hp)).
    exists short. split; [set_solver|simpl; lia].
  - apply (proj2 (get_features_index_error ∅ q _ _ Hq) [] _).
    + repeat constructor; unfold wide; simpl; lia.
    + reflexivity.
    + left. reflexivity.
Defined.
End ExtractorFurtherWitnesses.

(** ** Further properties of the networks *)

Section LSTMFacts.
Context {R : Type} `{!Scalar R}.

Lemma length_concat_const {A} (ls : list (list A)) (k : nat) :
  Forall (fun l => length l = k) ls → length (concat ls) = length ls * k.
Proof.
  induction 1 as [|l ls Hl _ IH]; simpl; [reflexivity|].
  rewrite length_app, Hl, IH. reflexivity.
Qed.

Lemma lstm_cell_lengths (m : LSTM R) (l d : nat) (x : list R) (hc : list R * list R) :
  length (fst (lstm_cell m l d x hc)) = hidden_size m
  ∧ length (snd (lstm_cell m l d x hc)) = hidden_size m.
Proof. destruct hc as [h c]. simpl. rewrite !length_fmap, !length_seq. auto. Qed.

(** The steps of one direction give one output of [hidden_size] entries
    per input, and on a sequence that is not empty a last state of that
    size. *)
Lemma lstm_steps_lengths (m : LSTM R) (l d : nat) (xs : list (list R))
    (hc : list R * list R) :
  length (fst (lstm_steps m l d xs hc)) = length xs
  ∧ Forall (fun o => length o = hidden_size m) (fst (lstm_steps m l d xs hc))
  ∧ (xs ≠ [] →
     length (fst (snd (lstm_steps m l d xs hc))) = hidden_size m
     ∧ length (snd (snd (lstm_steps m l d xs hc))) = hidden_size m).
Proof.
  revert hc. induction xs as [|x xs IH]; intros hc; simpl.
  - repeat split; [constructor|contradiction|contradiction].
  - specialize (IH (lstm_cell m l d x hc)).
    destruct (lstm_steps m l d xs (lstm_cell m l d x hc)) as [outs last] eqn:E.
    simpl in *. destruct IH as (Hlen & Hall & Hlast). split; [lia|]. split.
    + constructor; [apply lstm_cell_lengths|exact Hall].
    + intros _. destruct xs as [|x' xs'].
      * simpl in E. injection E as <- <-. apply lstm_cell_lengths.
      * apply Hlast. discriminate.
Qed.

Lemma lstm_direction_lengths (m : LSTM R) (l d : nat) (xs : list (list R))
    (hc : list R * list R) :
  length (fst (lstm_direction m l d xs hc)) = length xs
  ∧ Forall (fun o => length o = hidden_size m) (fst (lstm_direction m l d xs hc))
  ∧ (xs ≠ [] →
     length (fst (snd (lstm_direction m l d xs hc))) = hidden_size m
     ∧ length (snd (snd (lstm_direction m l d xs hc))) = hidden_size m).
Proof.
  unfold lstm_direction. destruct (d =? 0); [apply lstm_steps_lengths|].
  pose proof (lstm_steps_lengths m l d (rev xs) hc) as (Hlen & Hall & Hlast).
  destruct (lstm_steps m l d (rev xs) hc) as [outs last]. simpl in *.
  rewrite length_rev in *. split; [exact Hlen|]. split.
  - apply Forall_rev, Hall.
  - intros Hne. apply Hlast. intros Hr. apply Hne.
    apply (f_equal (@rev _)) in Hr. rewrite rev_involutive in Hr. exact Hr.
Qed.

(** One layer gives one output of [num_directions * hidden_size] entries
    per input and one last state per direction. *)
Lemma lstm_layer_lengths (m : LSTM R) (h0 c0 : Tensor R) (l : nat) (xs : list (list R)) :
  length (fst (lstm_layer m h0 c0 l xs)) = length xs
  ∧ Forall (fun o => length o = num_directions m * hidden_size m)
      (fst (lstm_layer m h0 c0 l xs))
  ∧ length (snd (lstm_layer m h0 c0 l xs)) = num_directions m
  ∧ (xs ≠ [] →
     Forall (fun hc => length (fst hc) = hidden_size m ∧ length (snd hc) = hidden_size m)
       (snd (lstm_layer m h0 c0 l xs))).
Proof.
  unfold lstm_layer. simpl.
  set (runs := (fun d => lstm_direction m l d xs (initial_of m h0 c0 l d))
                 <$> seq 0 (num_directions m)).
  assert (Hruns : Forall (fun r => length (fst r) = length xs
                            ∧ Forall (fun o => length o = hidden_size m) (fst r)
                            ∧ (xs ≠ [] → length (fst (snd r)) = hidden_size m
                                         ∧ length (snd (snd r)) = hidden_size m)) runs).
  { subst runs. apply Forall_fmap, Forall_forall. intros d _.
    apply lstm_direction_lengths. }
  assert (Hn : length runs = num_directions m).
  { subst runs. rewrite length_fmap, length_seq. reflexivity. }
  split; [apply length_imap|]. split; [|split].
  - apply Forall_forall. intros o Ho.
    apply list_elem_of_lookup in Ho as [t Ht].
    rewrite list_lookup_imap in Ht.
    destruct (xs !! t) as [x|] eqn:Ex; [|discriminate]. simpl in Ht. injection Ht as <-.
    apply lookup_lt_Some in Ex. rewrite <- Hn. clear Hn.
    induction Hruns as [|r rs (Hl & Ha & _) _ IH]; simpl; [reflexivity|].
    rewrite length_app, IH. f_equal.
    rewrite Forall_forall in Ha. apply Ha, list_elem_of_In, nth_In. lia.
  - rewrite length_fmap. exact Hn.
  - intros Hne. apply Forall_fmap. eapply Forall_impl; [exact Hruns|].
    intros r (_ & _ & Hr). apply Hr, Hne.
Qed.

(** A stack of [n] layers over a sequence that is not empty: one last
    state per layer and direction, and, with at least one layer, one
    output per input. *)
Lemma lstm_stack_lengths (m : LSTM R) (h0 c0 : Tensor R) (n l : nat) (xs : list (list R)) :
  xs ≠ [] →
  length (snd (lstm_stack m h0 c0 n l xs)) = n * num_directions m
  ∧ Forall (fun hc => length (fst hc) = hidden_size m ∧ length (snd hc) = hidden_size m)
      (snd (lstm_stack m h0 c0 n l xs))
  ∧ (1 <= n →
     length (fst (lstm_stack m h0 c0 n l xs)) = length xs
     ∧ Forall (fun o => length o = num_directions m * hidden_size m)
         (fst (lstm_stack m h0 c0 n l xs))).
Proof.
  revert l xs. induction n as [|n IH]; intros l xs Hne.
  - simpl. split; [reflexivity|]. split; [constructor|]. intros Hle. lia.
  - pose proof (lstm_layer_lengths m h0 c0 l xs) as (Hlen & Hall & Hfl & Hfin).
    cbn [lstm_stack].
    destruct (lstm_layer m h0 c0 l xs) as [outs finals]. cbn [fst snd] in *.
    destruct n as [|n'].
    + cbn [fst snd]. split; [lia|]. split; [apply Hfin, Hne|].
      intros _. split; [exact Hlen|exact Hall].
    + assert (Hne' : rdropout (dropout m) <$> outs ≠ []).
      { intros Hnil. apply (f_equal (@length _)) in Hnil.
        rewrite length_fmap, Hlen in Hnil. destruct xs; [contradiction|discriminate]. }
      specialize (IH (S l) (rdropout (dropout m) <$> outs) Hne').
      destruct (lstm_stack m h0 c0 (S n') (S l) (rdropout (dropout m) <$> outs))
        as [outs' finals']. cbn [fst snd] in *.
      destruct IH as (IH1 & IH2 & IH3). destruct (IH3 ltac:(lia)) as [IH4 IH5].
      rewrite length_fmap in IH4.
      split; [rewrite length_app, Hfl, IH1; lia|].
      split; [apply Forall_app; split; [apply Hfin, Hne|exact IH2]|].
      intros _. split; [lia|exact IH5].
Qed.

(** What an LSTM returns on a sequence that is not empty: output and
    states of the sizes their shapes announce. *)
Lemma lstm_forward_lengths (m : LSTM R) (input : Tensor R) (hidden : Tensor R * Tensor R)
    (out : Tensor R * (Tensor R * Tensor R)) (seq_len width : nat) :
  lstm_forward m input hidden = Ok out →
  shape input = [seq_len; 1; width] → 1 <= seq_len → 1 <= lstm_layers m →
  shape (fst out) = [seq_len; 1; num_directions m * hidden_size m]
  ∧ length (data (fst out)) = seq_len * (num_directions m * hidden_size m)
  ∧ length (data (fst (snd out))) = lstm_layers m * num_directions m * hidden_size m.
Proof.
  unfold lstm_forward. destruct hidden as [h0 c0]. intros Hrun Hshape Hseq Hlay.
  rewrite Hshape in Hrun. case_bool_decide; [|discriminate].
  set (xs := row width (data input) <$> seq 0 seq_len) in *.
  assert (Hne : xs ≠ []).
  { subst xs. destruct seq_len; [lia|discriminate]. }
  pose proof (lstm_stack_lengths m h0 c0 (lstm_layers m) 0 xs Hne) as (H1 & H2 & H3).
  destruct (H3 Hlay) as [H4 H5].
  destruct (lstm_stack m h0 c0 (lstm_layers m) 0 xs) as [outs finals].
  injection Hrun as <-. simpl in *. split; [reflexivity|]. split.
  - rewrite (length_concat_const outs _ H5), H4. subst xs.
    rewrite length_fmap, length_seq. reflexivity.
  - rewrite (length_concat_const (fst <$> finals) (hidden_size m)).
    + rewrite length_fmap, H1. reflexivity.
    + apply Forall_fmap. eapply Forall_impl; [exact H2|]. intros hc [Hh _]. exact Hh.
Qed.
End LSTMFacts.

Section FeedForwardFurther.
Context {R : Type} `{!Scalar R}.
Variable sequence_to_variable : list string → gmap string nat → bool → call (list nat).

(** A linear layer rejects a matrix whose rows are not of [in_features]
    entries. *)
Lemma linear_forward_mismatch (l : Linear R) (x : Tensor R) (rows d : nat) :
  shape x = [rows; d] → d ≠ in_features l → linear_forward l x = Raise RuntimeError.
Proof.
  intros Hx Hd. unfold linear_forward. rewrite Hx. simpl.
  rewrite (proj2 (Nat.eqb_neq _ _) Hd). reflexivity.
Qed.

(** Looking indices up one at a time: one row vector per index, or the
    table's error at the first index that is out of range. *)
Lemma lookup_each {T : Type} (e : Embedding R) (inp : list nat) (s : T) :
  (Forall (fun i => i < num_embeddings e) inp →
   comprehension (fun i => lift (embedding_forward e [i])) inp s
   = (Ok ((fun i => {| shape := [1; embedding_dim_of e];
                       data := table e i <$> seq 0 (embedding_dim_of e) |}) <$> inp), s))
  ∧ (¬ Forall (fun i => i < num_embeddings e) inp →
     comprehension (fun i => lift (embedding_forward e [i])) inp s
     = (Raise RuntimeError, s)).
Proof.
  induction inp as [|i inp [IHok IHbad]]; simpl.
  - split; [reflexivity|]. intros Hn. exfalso. apply Hn. constructor.
  - unfold bind at 1 3, lift at 1 3, embedding_forward at 1 3. simpl.
    destruct (Nat.ltb_spec i (num_embeddings e)) as [Hi|Hi]; simpl.
    + split.
      * intros Hall. apply Forall_cons in Hall as [_ Hall].
        unfold bind. rewrite (IHok Hall). simpl. rewrite app_nil_r. reflexivity.
      * intros Hn. unfold bind. rewrite IHbad; [reflexivity|].
        intros Hall. apply Hn. constructor; assumption.
    + split; [|reflexivity]. intros Hall. apply Forall_cons in Hall as [Hlt _]. lia.
Qed.

(** X3: [VanillaWordEmbeddingLookup.forward] on an instance built by
    [__init__]: when every index obtained for the sentence is below
    [len(word_to_ix)], it returns one tensor per index, in order, each of
    shape (1, embedding_dim) and holding that index's row of the table;
    when some index is not, it raises RuntimeError.  Either way the
    instance is unchanged. *)
Theorem vanilla_forward (dict : gmap string nat) (D : nat) (table : nat → nat → R)
    (sentence : list string) (inp : list nat) :
  let self := VanillaWordEmbeddingLookup.__init__ dict D table in
  sequence_to_variable sentence dict false = Ok inp →
  (Forall (fun i => i < size dict) inp →
   ∃ outs,
     VanillaWordEmbeddingLookup.forward sequence_to_variable sentence self = (Ok outs, self)
     ∧ length outs = length inp
     ∧ ∀ k i, inp !! k = Some i →
         outs !! k = Some {| shape := [1; VanillaWordEmbeddingLookup.output_dim self];
                             data := table i <$> seq 0 D |})
  ∧ (¬ Forall (fun i => i < size dict) inp →
     VanillaWordEmbeddingLookup.forward sequence_to_variable sentence self
     = (Raise RuntimeError, self)).
Proof.
  intros self Hinp.
  assert (Hfw : VanillaWordEmbeddingLookup.forward sequence_to_variable sentence self
                = comprehension
                    (fun i => lift (embedding_forward
                                      (VanillaWordEmbeddingLookup.word_embeddings self) [i]))
                    inp self).
  { unfold VanillaWordEmbeddingLookup.forward, bind, get, lift at 1. simpl.
    rewrite Hinp. reflexivity. }
  rewrite Hfw.
  destruct (lookup_each (VanillaWordEmbeddingLookup.word_embeddings self) inp self)
    as [Hok Hbad].
  split; [|exact Hbad].
  intros Hall. rewrite (Hok Hall). eexists. split; [reflexivity|].
  split; [apply length_fmap|].
  intros k i Hk. rewrite list_lookup_fmap, Hk. reflexivity.
Qed.

(** X4: [MLPCombinerNetwork.forward] on row vectors of widths [a] and [b]
    checks their sum only: it returns a vector of shape (1, embedding_dim)
    when [a + b = 2 * embedding_dim], whatever [a] and [b] are, and raises
    RuntimeError otherwise. *)
Theorem mlp_combiner_widths (D : nat)
    (w1 : nat → nat → R) (b1 : nat → R) (w2 : nat → nat → R) (b2 : nat → R)
    (head_embed modifier_embed : Tensor R) (a b : nat) :
  shape head_embed = [1; a] → shape modifier_embed = [1; b] →
  let net := MLPCombinerNetwork.__init__ D w1 b1 w2 b2 in
  (a + b = 2 * D →
   ∃ out, MLPCombinerNetwork.forward net head_embed modifier_embed = Ok out
          ∧ shape out = [1; D] ∧ length (data out) = D)
  ∧ (a + b ≠ 2 * D →
     MLPCombinerNetwork.forward net head_embed modifier_embed = Raise RuntimeError).
Proof.
  intros Hh Hm net.
  assert (Hcat : shape (concat_and_flatten [head_embed; modifier_embed]) = [1; a + b]).
  { rewrite concat_and_flatten_shape. simpl.
    rewrite (numel_row_vector _ _ Hh), (numel_row_vector _ _ Hm). repeat f_equal; lia. }
  split.
  - intros Hsum.
    destruct (linear_forward_matrix (MLPCombinerNetwork.first_layer net)
                (concat_and_flatten [head_embed; modifier_embed]) 1) as (x & Hx & Hsx & _).
    { rewrite Hcat, Hsum. reflexivity. }
    destruct (linear_forward_matrix (MLPCombinerNetwork.second_layer net)
                (pointwise rtanh x) 1) as (y & Hy & Hsy & Hly).
    { simpl. exact Hsx. }
    exists y. unfold MLPCombinerNetwork.forward. rewrite Hx. cbn [cbind].
    split; [exact Hy|]. simpl in Hsy, Hly. split; [exact Hsy|lia].
  - intros Hsum. unfold MLPCombinerNetwork.forward.
    rewrite (linear_forward_mismatch _ _ 1 (a + b) Hcat); [reflexivity|exact Hsum].
Qed.

(** X5: [ActionChooserNetwork.forward] raises RuntimeError on a list of
    features whose concatenated width is not the configured
    [input_dim]. *)
Theorem action_chooser_rejects (input_dim : nat)
    (w1 : nat → nat → R) (b1 : nat → R) (w2 : nat → nat → R) (b2 : nat → R)
    (inputs : list (Tensor R)) :
  sum_list (numel <$> inputs) ≠ input_dim →
  ActionChooserNetwork.forward (ActionChooserNetwork.__init__ input_dim w1 b1 w2 b2) inputs
  = Raise RuntimeError.
Proof.
  intros Hw. unfold ActionChooserNetwork.forward.
  rewrite (linear_forward_mismatch _ _ 1 (sum_list (numel <$> inputs)));
    [reflexivity|apply concat_and_flatten_shape|exact Hw].
Qed.
End FeedForwardFurther.

Section StatefulFurther.
Context {R : Type} `{!Scalar R}.
Variable sequence_to_variable : list string → gmap string nat → bool → call (list nat).

(** An LSTM accepts an input and states of the shapes it is configured
    for. *)
Lemma lstm_forward_accepts (m : LSTM R) (input h0 c0 : Tensor R) (seq_len : nat) :
  shape input = [seq_len; 1; input_size m] →
  shape h0 = [lstm_layers m * num_directions m; 1; hidden_size m] →
  shape c0 = [lstm_layers m * num_directions m; 1; hidden_size m] →
  ∃ out, lstm_forward m input (h0, c0) = Ok out.
Proof.
  intros Hi Hh Hc. unfold lstm_forward. rewrite Hi.
  rewrite bool_decide_eq_true_2 by auto.
  destruct (lstm_stack _ _ _ _ _ _) as [outs finals]. eexists. reflexivity.
Qed.

(** X6: the LSTM combiner keeps its configuration and the shape of its
    hidden state: after any history of [forward] and [clear_hidden_state]
    calls on an instance built by [__init__], returning or raising,
    [embedding_dim], [num_layers], [use_cuda] and the LSTM are those of
    the fresh instance and both halves of [hidden] have shape
    (num_layers, 1, embedding_dim). *)
Theorem combiner_hidden_shape (D L : nat) (dropout : R)
    (w_ih w_hh : nat → nat → nat → nat → R) (b_ih b_hh : nat → nat → nat → R)
    (calls : list combiner_call) :
  let fresh := LSTMCombinerNetwork.__init__ D L dropout w_ih w_hh b_ih b_hh in
  let used := combiner_after calls fresh in
  LSTMCombinerNetwork.embedding_dim used = D
  ∧ LSTMCombinerNetwork.num_layers used = L
  ∧ LSTMCombinerNetwork.use_cuda used = false
  ∧ LSTMCombinerNetwork.lstm used = LSTMCombinerNetwork.lstm fresh
  ∧ shape (fst (LSTMCombinerNetwork.hidden used)) = [L; 1; D]
  ∧ shape (snd (LSTMCombinerNetwork.hidden used)) = [L; 1; D].
Proof.
  intros fresh used.
  pose proof (combiner_after_shaped D L calls fresh (combiner_init_shaped _ _ _ _ _ _ _))
    as (Hd & Hl & _ & _ & _ & _ & Hh & Hc).
  pose proof (combiner_after_frame calls fresh (zeros [], zeros [])) as Hframe.
  fold used in Hd, Hl, Hh, Hc, Hframe.
  split; [exact Hd|]. split; [exact Hl|].
  split; [exact (f_equal LSTMCombinerNetwork.use_cuda Hframe)|].
  split; [exact (f_equal LSTMCombinerNetwork.lstm Hframe)|].
  split; assumption.
Qed.

(** The outcome of [forward] on a combiner of the announced configuration,
    for row vectors of widths [a] and [b]. *)
Lemma lstm_combiner_outcome (D L : nat) (self : LSTMCombinerNetwork.t R)
    (head_embed modifier_embed : Tensor R) (a b : nat) :
  combiner_shaped D L self → 1 <= L →
  shape head_embed = [1; a] → shape modifier_embed = [1; b] →
  (a + b = L * (2 * D) →
   ∃ out self',
     LSTMCombinerNetwork.forward head_embed modifier_embed self = (Ok out, self')
     ∧ shape out = [L; D] ∧ length (data out) = L * D
     ∧ data out = data (fst (LSTMCombinerNetwork.hidden self')))
  ∧ (a + b ≠ L * (2 * D) →
     LSTMCombinerNetwork.forward head_embed modifier_embed self
     = (Raise RuntimeError, self)).
Proof.
  intros (Hd & Hl & Hin & Hhs & Hll & Hbi & Hh0 & Hc0) HL Hh Hm.
  assert (Hcat : numel (concat_and_flatten [head_embed; modifier_embed]) = a + b).
  { unfold numel. rewrite concat_and_flatten_shape. simpl.
    rewrite (numel_row_vector _ _ Hh), (numel_row_vector _ _ Hm). lia. }
  unfold LSTMCombinerNetwork.forward, bind, get, put, lift. rewrite Hd, Hl.
  unfold resize at 1 3. rewrite Hcat.
  assert (Hnum : numel_of [L; 1; D * 2] = L * (2 * D)) by (simpl; lia).
  rewrite Hnum. split; intros Hsum.
  - rewrite (proj2 (Nat.eqb_eq _ _) Hsum).
    destruct (LSTMCombinerNetwork.hidden self) as [h0 c0] eqn:Ehid. simpl in Hh0, Hc0.
    set (input := {| shape := [L; 1; D * 2];
                     data := data (concat_and_flatten [head_embed; modifier_embed]) |}).
    assert (Hdir : num_directions (LSTMCombinerNetwork.lstm self) = 1)
      by (unfold num_directions; rewrite Hbi; reflexivity).
    destruct (lstm_forward_accepts (LSTMCombinerNetwork.lstm self) input h0 c0 L)
      as [out Hout].
    { simpl. rewrite Hin. reflexivity. }
    { rewrite Hll, Hdir, Hhs, Nat.mul_1_r. exact Hh0. }
    { rewrite Hll, Hdir, Hhs, Nat.mul_1_r. exact Hc0. }
    rewrite Hout.
    pose proof (lstm_forward_state_shape _ _ _ _ Hout) as [Hs1 _].
    pose proof (lstm_forward_lengths _ _ _ _ L (D * 2) Hout eq_refl HL
                  ltac:(rewrite Hll; exact HL)) as (_ & _ & Hlen).
    rewrite Hll, Hdir, Hhs, Nat.mul_1_r in Hs1, Hlen.
    unfold resize, numel. rewrite Hs1.
    replace (numel_of [L; 1; D] =? numel_of [L; D]) with true
      by (symmetry; apply Nat.eqb_eq; simpl; lia).
    do 2 eexists. split; [reflexivity|]. simpl. repeat split. exact Hlen.
  - rewrite (proj2 (Nat.eqb_neq _ _) Hsum). reflexivity.
Qed.

(** X7: [LSTMCombinerNetwork.forward], on an instance built by [__init__]
    with at least one layer and in whatever state earlier calls left it,
    applied to row vectors of widths [a] and [b]: it returns exactly when
    [a + b = num_layers * 2 * embedding_dim], and then it returns the new
    first half of [hidden], as (num_layers, embedding_dim), one row per
    layer; otherwise it raises RuntimeError and leaves the instance as it
    was. *)
Theorem lstm_combiner_widths (D L : nat) (dropout : R)
    (w_ih w_hh : nat → nat → nat → nat → R) (b_ih b_hh : nat → nat → nat → R)
    (calls : list combiner_call) (head_embed modifier_embed : Tensor R) (a b : nat) :
  1 <= L →
  shape head_embed = [1; a] → shape modifier_embed = [1; b] →
  let self := combiner_after calls
                (LSTMCombinerNetwork.__init__ D L dropout w_ih w_hh b_ih b_hh) in
  (a + b = L * (2 * D) →
   ∃ out self',
     LSTMCombinerNetwork.forward head_embed modifier_embed self = (Ok out, self')
     ∧ shape out = [L; D] ∧ length (data out) = L * D
     ∧ data out = data (fst (LSTMCombinerNetwork.hidden self')))
  ∧ (a + b ≠ L * (2 * D) →
     LSTMCombinerNetwork.forward head_embed modifier_embed self
     = (Raise RuntimeError, self)).
Proof.
  intros HL Hh Hm self. apply lstm_combiner_outcome; try assumption.
  apply combiner_after_shaped, combiner_init_shaped.
Qed.

(** X8: a call of [LSTMCombinerNetwork.forward] that raises has changed
    nothing: on an instance built by [__init__], in whatever state earlier
    calls left it and whatever the arguments, the instance after a raising
    call is the instance before it. *)
Theorem lstm_combiner_forward_atomic (D L : nat) (dropout : R)
    (w_ih w_hh : nat → nat → nat → nat → R) (b_ih b_hh : nat → nat → nat → R)
    (calls : list combiner_call) (head_embed modifier_embed : Tensor R)
    (e : exn) (self' : LSTMCombinerNetwork.t R) :
  let self := combiner_after calls
                (LSTMCombinerNetwork.__init__ D L dropout w_ih w_hh b_ih b_hh) in
  LSTMCombinerNetwork.forward head_embed modifier_embed self = (Raise e, self') →
  self' = self.
Proof.
  intros self.
  pose proof (combiner_after_shaped D L calls _ (combiner_init_shaped D L dropout
                w_ih w_hh b_ih b_hh)) as (Hd & Hl & Hin & Hhs & Hll & Hbi & Hh0 & Hc0).
  fold self in Hd, Hl, Hin, Hhs, Hll, Hbi, Hh0, Hc0.
  unfold LSTMCombinerNetwork.forward, bind, get, put, lift.
  destruct (resize _ _) as [input|]; [|intros [= _ <-]; reflexivity].
  destruct (lstm_forward _ _ _) as [out|] eqn:Hout; [|intros [= _ <-]; reflexivity].
  apply lstm_forward_state_shape in Hout as [Hs1 _].
  unfold num_directions in Hs1. rewrite Hll, Hbi, Hhs, Nat.mul_1_r in Hs1.
  unfold resize, numel. rewrite Hs1, Hl, Hd.
  replace (numel_of [L; 1; D] =? numel_of [L; D]) with true
    by (symmetry; apply Nat.eqb_eq; simpl; lia).
  discriminate.
Qed.
End StatefulFurther.

Section LookupFurther.
Context {R : Type} `{!Scalar R}.
Variable sequence_to_variable : list string → gmap string nat → bool → call (list nat).

Local Abbreviation Lookup := (BiLSTMWordEmbeddingLookup.t R).
Local Abbreviation lookup_forward := (BiLSTMWordEmbeddingLookup.forward sequence_to_variable).

Lemma embed_init_shaped (dict : gmap string nat) (E H L : nat) (dropout : R)
    (table : nat → nat → R)
    (w_ih w_hh : nat → nat → nat → nat → R) (b_ih b_hh : nat → nat → nat → R) :
  embed_shaped dict E L H
    (BiLSTMWordEmbeddingLookup.__init__ dict E H L dropout table w_ih w_hh b_ih b_hh).
Proof. repeat split. Qed.

(** Neither [forward] nor [clear_hidden_state] changes the configuration
    or the shape of the hidden state of the lookup. *)
Lemma embed_step_shaped (dict : gmap string nat) (E H L : nat) (self : Lookup)
    (c : embed_call) :
  embed_shaped dict E L H self →
  embed_shaped dict E L H (embed_step sequence_to_variable self c).
Proof.
  intros Hs.
  pose proof Hs as (Hw & Hnl & Hhd & He & Ho & Hne & Hed & Hin & Hhs & Hll & Hbi & Hh0 & Hc0).
  destruct c as [sentence|]; simpl.
  - unfold BiLSTMWordEmbeddingLookup.forward, bind, get, put, lift, ret, raise.
    rewrite Hw.
    destruct (sequence_to_variable _ _ _) as [inp|]; [|exact Hs].
    destruct (embedding_forward _ _) as [emb|]; [|exact Hs].
    destruct (resize _ _) as [input|]; [|exact Hs].
    destruct (lstm_forward _ _ _) as [out|] eqn:Eout; [|exact Hs].
    apply lstm_forward_state_shape in Eout as [E1 E2].
    unfold num_directions in E1, E2. rewrite Hbi, Hll, Hhs in E1, E2.
    simpl. repeat split; assumption.
  - unfold BiLSTMWordEmbeddingLookup.init_hidden. rewrite Hnl, Hhd.
    destruct (BiLSTMWordEmbeddingLookup.use_cuda self); repeat split; assumption.
Qed.

Lemma embed_after_shaped (dict : gmap string nat) (E H L : nat)
    (calls : list embed_call) (self : Lookup) :
  embed_shaped dict E L H self →
  embed_shaped dict E L H (embed_after sequence_to_variable calls self).
Proof.
  revert self. induction calls as [|c calls IH]; intros self Hs; [exact Hs|].
  simpl. apply IH, embed_step_shaped, Hs.
Qed.

(** The slices of a sequence of row vectors. *)
Lemma slices_rows (t : Tensor R) (n k : nat) :
  shape t = [n; 1; k] → length (data t) = n * k →
  length (slices t) = n
  ∧ Forall (fun o => shape o = [1; k] ∧ length (data o) = k) (slices t).
Proof.
  intros Hs Hl. unfold slices. rewrite Hs. split.
  - rewrite length_fmap, length_seq. reflexivity.
  - apply Forall_fmap, Forall_forall. intros i Hi. apply elem_of_seq in Hi.
    simpl. split; [reflexivity|].
    unfold row. rewrite length_take, length_drop, Hl. nia.
Qed.

(** The outcome of [forward] on a lookup of the announced configuration. *)
Lemma embed_forward_outcome (dict : gmap string nat) (E H L : nat) (self : Lookup)
    (sentence : list string) (inp : list nat) :
  embed_shaped dict E L H self → 1 <= L → sentence ≠ [] →
  sequence_to_variable sentence dict (BiLSTMWordEmbeddingLookup.use_cuda self) = Ok inp →
  length inp = length sentence →
  Forall (fun i => i < size dict) inp →
  ∃ outs self',
    lookup_forward sentence self = (Ok outs, self')
    ∧ length outs = length sentence
    ∧ Forall (fun o => shape o = [1; 2 * (H / 2)] ∧ length (data o) = 2 * (H / 2)) outs.
Proof.
  intros (Hw & Hnl & Hhd & He & Ho & Hne & Hed & Hin & Hhs & Hll & Hbi & Hh0 & Hc0)
    HL Hsent Hinp Hlen Hall.
  unfold BiLSTMWordEmbeddingLookup.forward, bind, get, put, lift, ret.
  rewrite Hw, Hinp. unfold embedding_forward.
  replace (forallb _ inp) with true.
  2:{ symmetry. apply forallb_forall. intros i Hi. apply Nat.ltb_lt. rewrite Hne.
      rewrite Forall_forall in Hall. apply Hall, list_elem_of_In, Hi. }
  unfold resize, numel. cbn [shape data]. rewrite Hed, He.
  replace (numel_of [length inp; E] =? numel_of [length sentence; 1; E]) with true
    by (symmetry; apply Nat.eqb_eq; simpl; lia).
  destruct (BiLSTMWordEmbeddingLookup.hidden self) as [h0 c0] eqn:Ehid. simpl in Hh0, Hc0.
  assert (Hdir : num_directions (BiLSTMWordEmbeddingLookup.lstm self) = 2)
    by (unfold num_directions; rewrite Hbi; reflexivity).
  match goal with |- context [lstm_forward _ ?i _] => set (input := i) end.
  destruct (lstm_forward_accepts (BiLSTMWordEmbeddingLookup.lstm self) input h0 c0
              (length sentence)) as [out Hout].
  { simpl. rewrite Hin. reflexivity. }
  { rewrite Hll, Hdir, Hhs. exact Hh0. }
  { rewrite Hll, Hdir, Hhs. exact Hc0. }
  rewrite Hout.
  assert (Hpos : 1 <= length sentence) by (destruct sentence; [contradiction|simpl; lia]).
  pose proof (lstm_forward_lengths _ _ _ _ (length sentence) E Hout eq_refl Hpos
                ltac:(rewrite Hll; exact HL)) as (Hso & Hlo & _).
  rewrite Hdir, Hhs in Hso, Hlo.
  do 2 eexists. split; [reflexivity|].
  apply (slices_rows (fst out) (length sentence) (2 * (H / 2)) Hso Hlo).
Qed.

(** X9: the BiLSTM lookup keeps its configuration and the shape of its
    hidden state: after any history of [forward] and [clear_hidden_state]
    calls on an instance built by [__init__], returning or raising, the
    dictionary, the dimensions, the table and the LSTM are those of the
    fresh instance and both halves of [hidden] have shape
    (num_layers * 2, 1, hidden_dim / 2). *)
Theorem lookup_hidden_shape (dict : gmap string nat) (E H L : nat) (dropout : R)
    (table : nat → nat → R)
    (w_ih w_hh : nat → nat → nat → nat → R) (b_ih b_hh : nat → nat → nat → R)
    (calls : list embed_call) :
  let fresh := BiLSTMWordEmbeddingLookup.__init__ dict E H L dropout table
                 w_ih w_hh b_ih b_hh in
  let used := embed_after sequence_to_variable calls fresh in
  BiLSTMWordEmbeddingLookup.set_hidden used (BiLSTMWordEmbeddingLookup.hidden fresh) = fresh
  ∧ shape (fst (BiLSTMWordEmbeddingLookup.hidden used)) = [L * 2; 1; H / 2]
  ∧ shape (snd (BiLSTMWordEmbeddingLookup.hidden used)) = [L * 2; 1; H / 2].
Proof.
  intros fresh used.
  pose proof (embed_after_shaped dict E H L calls fresh
                (embed_init_shaped _ _ _ _ _ _ _ _ _ _))
    as (_ & _ & _ & _ & _ & _ & _ & _ & _ & _ & _ & Hh & Hc).
  split; [|split; assumption].
  subst used. rewrite embed_after_frame. reflexivity.
Qed.

(** X10: [BiLSTMWordEmbeddingLookup.forward] on a sentence that is not
    empty, on an instance built by [__init__] with at least one layer and
    in whatever state earlier calls left it: when the sentence yields one
    index per word, all below [len(word_to_ix)], it returns one tensor per
    word, each of shape (1, 2 * (hidden_dim / 2)) with that many entries.
    That width is the advertised [output_dim] exactly when [hidden_dim] is
    even. *)
Theorem lookup_forward_outputs (dict : gmap string nat) (E H L : nat) (dropout : R)
    (table : nat → nat → R)
    (w_ih w_hh : nat → nat → nat → nat → R) (b_ih b_hh : nat → nat → nat → R)
    (calls : list embed_call) (sentence : list string) (inp : list nat) :
  let self := embed_after sequence_to_variable calls
                (BiLSTMWordEmbeddingLookup.__init__ dict E H L dropout table
                   w_ih w_hh b_ih b_hh) in
  1 <= L → sentence ≠ [] →
  sequence_to_variable sentence dict (BiLSTMWordEmbeddingLookup.use_cuda self) = Ok inp →
  length inp = length sentence →
  Forall (fun i => i < size dict) inp →
  (∃ outs self',
     BiLSTMWordEmbeddingLookup.forward sequence_to_variable sentence self = (Ok outs, self')
     ∧ length outs = length sentence
     ∧ Forall (fun o => shape o = [1; 2 * (H / 2)] ∧ length (data o) = 2 * (H / 2)) outs)
  ∧ (2 * (H / 2) = BiLSTMWordEmbeddingLookup.output_dim self ↔ Nat.Even H).
Proof.
  intros self HL Hsent Hinp Hlen Hall.
  pose proof (embed_after_shaped dict E H L calls _
                (embed_init_shaped dict E H L dropout table w_ih w_hh b_ih b_hh)) as Hs.
  fold self in Hs. split.
  - eapply embed_forward_outcome; eassumption.
  - destruct Hs as (_ & _ & _ & _ & -> & _). split.
    + intros Heq. exists (H / 2). lia.
    + intros [k ->]. rewrite (Nat.mul_comm 2 k), Nat.div_mul by lia. lia.
Qed.

(** X11: a call of [BiLSTMWordEmbeddingLookup.forward] that raises has
    changed nothing, whatever state the instance is in; and on an instance
    whose [word_to_ix] is None the call raises AssertionError. *)
Theorem lookup_forward_atomic (self : BiLSTMWordEmbeddingLookup.t R)
    (sentence : list string) :
  (∀ e self',
     BiLSTMWordEmbeddingLookup.forward sequence_to_variable sentence self = (Raise e, self') →
     self' = self)
  ∧ (BiLSTMWordEmbeddingLookup.word_to_ix self = None →
     BiLSTMWordEmbeddingLookup.forward sequence_to_variable sentence self
     = (Raise AssertionError, self)).
Proof.
  unfold BiLSTMWordEmbeddingLookup.forward, bind, get, put, lift, ret, raise. split.
  - intros e self'.
    destruct (BiLSTMWordEmbeddingLookup.word_to_ix self) as [dict|];
      [|intros [= _ <-]; reflexivity].
    destruct (sequence_to_variable _ _ _) as [inp|]; [|intros [= _ <-]; reflexivity].
    destruct (embedding_forward _ _) as [emb|]; [|intros [= _ <-]; reflexivity].
    destruct (resize _ _) as [input|]; [|intros [= _ <-]; reflexivity].
    destruct (lstm_forward _ _ _) as [out|]; [|intros [= _ <-]; reflexivity].
    discriminate.
  - intros ->. reflexivity.
Qed.
End LookupFurther.

Section FurtherWitnesses.
Local Open Scope Z_scope.
Local Existing Instance Z_scalar.

Local Abbreviation ZT := (Tensor Z).
Local Abbreviation m2 := (fun i j : nat => Z.of_nat (i + j)).
Local Abbreviation v1 := (fun i : nat => Z.of_nat i).
Local Abbreviation m4 := (fun l d i j : nat => Z.of_nat (i + j) - 1).
Local Abbreviation v3 := (fun l d i : nat => Z.of_nat i).
Local Abbreviation words := two_words.
Local Abbreviation sparse := one_word.
Local Abbreviation wide2 := ({| shape := [1; 2]%nat; data := [5; 1] |} : ZT).
Local Abbreviation wide3 := ({| shape := [1; 3]%nat; data := [5; 1; 2] |} : ZT).
Local Abbreviation wide1 := ({| shape := [1; 1]%nat; data := [7] |} : ZT).

(** An instance of X3: a dictionary of two words, and one whose only index
    is beyond its size. *)
Lemma vanilla_forward_witness :
  (∃ outs,
     VanillaWordEmbeddingLookup.forward lookup_words ["dog"; "the"]%string
       (VanillaWordEmbeddingLookup.__init__ words 2%nat m2)
     = (Ok outs, VanillaWordEmbeddingLookup.__init__ words 2%nat m2)
     ∧ length outs = 2%nat
     ∧ ∀ k i, [1; 0]%nat !! k = Some i →
         outs !! k = Some {| shape := [1; 2]%nat; data := m2 i <$> seq 0 2 |})
  ∧ VanillaWordEmbeddingLookup.forward lookup_words ["the"]%string
      (VanillaWordEmbeddingLookup.__init__ sparse 2%nat m2)
    = (Raise RuntimeError, VanillaWordEmbeddingLookup.__init__ sparse 2%nat m2).
Proof.
  split.
  - apply (proj1 (vanilla_forward lookup_words words 2%nat m2 ["dog"; "the"]%string
                    [1; 0]%nat ltac:(vm_compute; reflexivity))).
    repeat (apply Forall_cons; split; [vm_compute; lia|]). constructor.
  - apply (proj2 (vanilla_forward lookup_words sparse 2%nat m2 ["the"]%string
                    [5]%nat ltac:(vm_compute; reflexivity))).
    intros Hall. apply Forall_cons in Hall as [Hlt _]. vm_compute in Hlt. lia.
Defined.

(** An instance of X4: widths 1 and 3 pass for [embedding_dim = 2], widths
    2 and 3 do not. *)
Lemma mlp_combiner_widths_witness :
  (∃ out, MLPCombinerNetwork.forward (MLPCombinerNetwork.__init__ 2%nat m2 v1 m2 v1)
            wide1 wide3 = Ok out
          ∧ shape out = [1; 2]%nat ∧ length (data out) = 2%nat)
  ∧ MLPCombinerNetwork.forward (MLPCombinerNetwork.__init__ 2%nat m2 v1 m2 v1)
      wide2 wide3 = Raise RuntimeError.
Proof.
  split.
  - apply (proj1 (mlp_combiner_widths 2%nat m2 v1 m2 v1 wide1 wide3 1 3 eq_refl eq_refl)).
    reflexivity.
  - apply (proj2 (mlp_combiner_widths 2%nat m2 v1 m2 v1 wide2 wide3 2 3 eq_refl eq_refl)).
    simpl. lia.
Defined.

(** An instance of X5: two features of total width 5 for [input_dim = 4]. *)
Lemma action_chooser_rejects_witness :
  ActionChooserNetwork.forward (ActionChooserNetwork.__init__ 4%nat m2 v1 m2 v1)
    [wide2; wide3] = Raise RuntimeError.
Proof.
  apply action_chooser_rejects. simpl. lia.
Defined.

(** An instance of X7: a two-layer combiner for [embedding_dim = 1], after
    a raising call; the widths 1 and 3 sum to 2 * 2 * 1, the widths 1 and 1
    do not. *)
Lemma lstm_combiner_widths_witness :
  let self := combiner_after [CombineForward wide1 wide1]
                (LSTMCombinerNetwork.__init__ 1%nat 2%nat 0 m4 m4 v3 v3) in
  (∃ out self',
     LSTMCombinerNetwork.forward wide1 wide3 self = (Ok out, self')
     ∧ shape out = [2; 1]%nat ∧ length (data out) = (2 * 1)%nat
     ∧ data out = data (fst (LSTMCombinerNetwork.hidden self')))
  ∧ LSTMCombinerNetwork.forward wide1 wide1 self = (Raise RuntimeError, self).
Proof.
  intros self. split.
  - apply (proj1 (lstm_combiner_widths 1%nat 2%nat 0 m4 m4 v3 v3
                    [CombineForward wide1 wide1] wide1 wide3 1 3
                    ltac:(lia) eq_refl eq_refl)).
    reflexivity.
  - apply (proj2 (lstm_combiner_widths 1%nat 2%nat 0 m4 m4 v3 v3
                    [CombineForward wide1 wide1] wide1 wide1 1 1
                    ltac:(lia) eq_refl eq_refl)).
    simpl. lia.
Defined.

(** An instance of X8: the raising call of the two-layer combiner. *)
Lemma lstm_combiner_forward_atomic_witness :
  let fresh := LSTMCombinerNetwork.__init__ 1%nat 2%nat 0 m4 m4 v3 v3 in
  snd (LSTMCombinerNetwork.forward wide1 wide1 fresh) = fresh.
Proof.
  intros fresh.
  apply (lstm_combiner_forward_atomic 1%nat 2%nat 0 m4 m4 v3 v3 [] wide1 wide1
           RuntimeError (snd (LSTMCombinerNetwork.forward wide1 wide1 fresh))).
  reflexivity.
Defined.

(** An instance of X10: a used one-layer lookup with [hidden_dim = 5], on
    a sentence of two words. *)
Lemma lookup_forward_outputs_witness :
  let self := embed_after lookup_words [EmbedForward ["the"]%string]
                (BiLSTMWordEmbeddingLookup.__init__ words 3%nat 5%nat 1%nat 0 m2
                   m4 m4 v3 v3) in
  (∃ outs self',
     BiLSTMWordEmbeddingLookup.forward lookup_words ["dog"; "the"]%string self
     = (Ok outs, self')
     ∧ length outs = 2%nat
     ∧ Forall (fun o => shape o = [1; 2 * (5 / 2)]%nat
                        ∧ length (data o) = (2 * (5 / 2))%nat) outs)
  ∧ ((2 * (5 / 2))%nat = BiLSTMWordEmbeddingLookup.output_dim self ↔ Nat.Even 5).
Proof.
  intros self.
  apply (lookup_forward_outputs lookup_words words 3%nat 5%nat 1%nat 0 m2 m4 m4 v3 v3
           [EmbedForward ["the"]%string] ["dog"; "the"]%string [1; 0]%nat).
  - lia.
  - discriminate.
  - vm_compute. reflexivity.
  - reflexivity.
  - repeat (apply Forall_cons; split; [vm_compute; lia|]). constructor.
Defined.

(** An instance of X11: a word that is not in the dictionary, and a lookup
    whose dictionary has been taken away. *)
Lemma lookup_forward_atomic_witness :
  let fresh := BiLSTMWordEmbeddingLookup.__init__ words 3%nat 4%nat 1%nat 0 m2
                 m4 m4 v3 v3 in
  let bare := BiLSTMWordEmbeddingLookup.mk None 1 3 4 false 4
                (BiLSTMWordEmbeddingLookup.word_embeddings fresh)
                (BiLSTMWordEmbeddingLookup.lstm fresh)
                (BiLSTMWordEmbeddingLookup.hidden fresh) in
  snd (BiLSTMWordEmbeddingLookup.forward lookup_words ["cat"]%string fresh) = fresh
  ∧ BiLSTMWordEmbeddingLookup.forward lookup_words ["the"]%string bare
    = (Raise AssertionError, bare).
Proof.
  intros fresh bare. split.
  - apply (proj1 (lookup_forward_atomic lookup_words fresh ["cat"]%string) RuntimeError).
    reflexivity.
  - apply (proj2 (lookup_forward_atomic lookup_words bare ["the"]%string)).
    reflexivity.
Defined.
End FurtherWitnesses.
